(** * MultimodalERC: the training loop of [multimodal_perceiver/train.py]

    A shallow embedding of [generate_subsampling], [train_step], [val_step],
    [test_step], [test_for_eval] and [train], and the properties of the
    written specification that concern them.

    Conventions of the embedding.
    - Python [int] is [Z]; NumPy's [int64] is [Z] with its wrap-around written
      out ([wrap64]).
    - Python [float] is idealised as an exact rational ([Q]): losses and F1
      scores are added, divided and compared without rounding.
    - PyTorch, scikit-learn and wandb are outside the repository.  The model,
      the loss and the optimizer are the members of the interface [Torch];
      [f1_score] follows scikit-learn's definition of the support-weighted
      F1; [random.randint] follows its contract [a <= N <= b].
    - Statements with an effect run in the monad [M] over a [World] that holds
      the random source, the model, the optimizer, the gradient mode and the
      trace of observable calls. *)

From Stdlib Require Import ZArith QArith List Bool Lia Lqa.
From Stdlib Require String.
Import (notations) String.
Import ListNotations.

Set Implicit Arguments.
Open Scope Z_scope.

(** ** Python and NumPy arithmetic *)

Inductive exn : Type :=
| ValueError
| ZeroDivisionError
| IndexError
| RuntimeError
| OverflowError.

(** Two's complement reduction of an integer to 64 bits. *)
Definition wrap64 (z : Z) : Z := (z + 2 ^ 63) mod 2 ^ 64 - 2 ^ 63.

Definition int64_range (z : Z) : bool := (- 2 ^ 63 <=? z) && (z <? 2 ^ 63).

(** [np.prod] of a tuple of integers: an [int64] product that wraps.  Of the
    empty tuple NumPy returns the float [1.0]; the later arithmetic is then
    done on floats and has the same values for a divisor below [2 ^ 63]. *)
Definition np_prod (dims : list Z) : Z :=
  fold_left (fun acc d => wrap64 (acc * d)) dims 1.

(** The product of a tuple of integers without the wrap-around. *)
Definition list_prod (dims : list Z) : Z := fold_left Z.mul dims 1.

(** [shape[1:-1]]: all but the first and the last entry. *)
Definition slice_1_m1 (shape : list Z) : list Z := removelast (tl shape).

(** [torch.arange(a, b)] as the list of its entries. *)
Definition arange_list (a b : Z) : list Z :=
  map (fun k => a + Z.of_nat k) (seq 0 (Z.to_nat (b - a))).

(** ** The random source

    The state of Python's [random] module: an infinite supply of raw draws and
    the position of the next one.  [randint a b] maps a raw draw onto
    [a .. b]. *)
Record Random : Type := mkRandom { entropy : nat -> Z; cursor : nat }.

Definition next_draw (r : Random) : Z := entropy r (cursor r).
Definition advance (r : Random) : Random := mkRandom (entropy r) (S (cursor r)).
Definition pick (a b : Z) (r : Random) : Z := a + next_draw r mod (b - a + 1).

(** ** The subsampling specification returned by [generate_subsampling] *)
Record Subsampling : Type := mkSubsampling {
  sub_image : list Z;
  sub_audio : list Z;
  sub_label : option (list Z)
}.

(** ** scikit-learn's [f1_score(y_true, y_pred, average='weighted')] *)
Module Metrics.

Definition count (c : Z) (l : list Z) : Z := Z.of_nat (count_occ Z.eq_dec l c).

(** Number of positions where both lists hold [c]. *)
Fixpoint true_pos (c : Z) (gold pred : list Z) : Z :=
  match gold, pred with
  | g :: gold', p :: pred' =>
      (if (g =? c) && (p =? c) then 1 else 0) + true_pos c gold' pred'
  | _, _ => 0
  end.

(** F1 of one class: [2 tp / (2 tp + fp + fn)], and [0] when the class
    occurs in neither list. *)
Definition class_f1 (c : Z) (gold pred : list Z) : Q :=
  let denom := count c gold + count c pred in
  if denom =? 0 then 0%Q
  else Qmake (2 * true_pos c gold pred) (Z.to_pos denom).

Definition labels_of (gold pred : list Z) : list Z := nodup Z.eq_dec (gold ++ pred).

Definition Qsum (l : list Q) : Q := fold_right Qplus 0%Q l.

(** The class scores averaged with the class supports as weights; [0] when
    there is no sample. *)
Definition weighted_f1 (gold pred : list Z) : Q :=
  let n := Z.of_nat (length gold) in
  if n =? 0 then 0%Q
  else
    (Qsum (map (fun c => inject_Z (count c gold) * class_f1 c gold pred)%Q
               (labels_of gold pred))
     / inject_Z n)%Q.

End Metrics.

(** ** The framework interface

    A batch is the dictionary with the keys ['image'], ['audio'] and
    ['label']. *)
Record Batch (Tensor : Type) : Type := mkBatch {
  image : Tensor;
  audio : Tensor;
  label : Tensor
}.

(** What the loop consumes from PyTorch: tensors with a shape, the model
    (called in training or evaluation mode), the loss, and the optimizer.
    [forward] is [model(inputs=.., subsampled_output_points=..)['logits']['label']],
    [loss_fn] is [loss_fn(y_pred, y).item()].  The two laws say that the
    model returns one row of logits per sample of the batch and that a softmax
    keeps the rows. *)
Class Torch : Type := {
  Tensor : Type;
  Net : Type;
  Optim : Type;
  shape : Tensor -> list N;
  argmax_dim1 : Tensor -> list Z;
  softmax_dim1 : Tensor -> Tensor;
  forward : bool -> Net -> Batch Tensor -> Subsampling -> Tensor;
  loss_fn : Tensor -> Tensor -> Q;
  zero_grad : Net -> Net;
  backward : bool -> Net -> Batch Tensor -> Subsampling -> Net;
  opt_step : Optim -> Net -> Optim * Net;
  softmax_rows : forall t,
    length (argmax_dim1 (softmax_dim1 t)) = length (argmax_dim1 t);
  forward_rows : forall tr n b s,
    length (argmax_dim1 (forward tr n b s)) = length (argmax_dim1 (label b))
}.

(** ** Observable calls *)
Inductive Event : Type :=
| ModelTo                                  (* model.to(device) *)
| ModelTrain                               (* model.train() *)
| ModelEval                                (* model.eval() *)
| Forward (training grad : bool)           (* model(...), with the mode it ran in *)
| ZeroGrad                                 (* optimizer.zero_grad() *)
| Backward                                 (* loss.backward() *)
| OptimizerStep                            (* optimizer.step() *)
| WandbLog (obs : list (String.string * Q))  (* wandb.log({...}) *)
| TrainStepReturned (loss f1 : Q)          (* train(): train_step returned *)
| ValStepReturned (loss f1 : Q)            (* train(): val_step returned *)
| StopStateUpdated (prev : Q) (count : Z)  (* train(): after lines 157-159 *)
| MetricsAppended (tl tf vl vf : Q).       (* train(): the four appends *)

Section Loop.

Context {T : Torch}.

Record World : Type := mkWorld {
  rng : Random;            (* state of the module random *)
  training : bool;         (* model.training *)
  net : Net;               (* parameters and gradients of the model *)
  optim : Optim;           (* state of the optimizer *)
  grad_enabled : bool;     (* false inside torch.inference_mode() *)
  trace : list Event       (* calls made so far, oldest first *)
}.

(** ** The monad of the loop: state, and exceptions that keep the state *)
Inductive Outcome (A : Type) : Type :=
| Ok (a : A) (w : World)
| Raise (e : exn) (w : World).
Arguments Raise {A} e w.

Definition M (A : Type) : Type := World -> Outcome A.

Definition ret {A} (a : A) : M A := fun w => Ok a w.
Definition raise {A} (e : exn) : M A := fun w => Raise e w.
Definition bind {A B} (c : M A) (k : A -> M B) : M B :=
  fun w => match c w with
           | Ok a w' => k a w'
           | Raise e w' => Raise e w'
           end.

Notation "x <- c ;; k" := (bind c (fun x => k))
  (at level 61, c at next level, right associativity).
Notation "' p <- c ;; k" := (bind c (fun x => let 'p := x in k))
  (at level 61, p pattern, c at next level, right associativity).
Notation "c ;; k" := (bind c (fun _ => k))
  (at level 61, right associativity).

(** [for x in l: acc = body(acc, x)] *)
Fixpoint for_each {A B} (l : list A) (acc : B) (body : B -> A -> M B) : M B :=
  match l with
  | [] => ret acc
  | x :: l' => acc' <- body acc x ;; for_each l' acc' body
  end.

(** The results of running [body] on each item in turn. *)
Fixpoint map_each {A B} (l : list A) (body : A -> M B) : M (list B) :=
  match l with
  | [] => ret []
  | x :: l' => y <- body x ;; ys <- map_each l' body ;; ret (y :: ys)
  end.

(** *** Primitive statements *)

Definition emit (ev : Event) : M unit := fun w =>
  Ok tt (mkWorld (rng w) (training w) (net w) (optim w) (grad_enabled w)
                 (trace w ++ [ev])).

(** [random.randint(a, b)]; an empty range is a [ValueError]. *)
Definition randint (a b : Z) : M Z := fun w =>
  if b <? a then Raise ValueError w
  else Ok (pick a b (rng w))
          (mkWorld (advance (rng w)) (training w) (net w) (optim w)
                   (grad_enabled w) (trace w)).

(** [a // b] on Python integers. *)
Definition py_floordiv (a b : Z) : M Z :=
  if b =? 0 then raise ZeroDivisionError else ret (a / b).

(** [a // b] and [a * b] with [a] an [int64] and [b] a Python integer, which
    must fit; NumPy's integer division by zero warns and gives [0]. *)
Definition np_floordiv (a b : Z) : M Z :=
  if negb (int64_range b) then raise OverflowError
  else if b =? 0 then ret 0
  else ret (wrap64 (a / b)).

Definition np_mul (a b : Z) : M Z :=
  if negb (int64_range b) then raise OverflowError else ret (wrap64 (a * b)).

(** [shape[i]] for [0 <= i]. *)
Definition index (shape : list Z) (i : nat) : M Z :=
  match nth_error shape i with
  | Some d => ret d
  | None => raise IndexError
  end.

(** [torch.arange(a, b)]; an upper bound below the lower one is refused. *)
Definition arange (a b : Z) : M (list Z) :=
  if b <? a then raise RuntimeError else ret (arange_list a b).

(** ** [generate_subsampling] *)
Definition generate_subsampling (nchunks samples_per_patch : Z)
    (im_shape au_shape : list Z) : M Subsampling :=
  chunk_idx <- randint 0 nchunks ;;
  image_chunk_size <- np_floordiv (np_prod (slice_1_m1 im_shape)) nchunks ;;
  au_len <- index au_shape 1 ;;
  au_patches <- py_floordiv au_len samples_per_patch ;;
  audio_chunk_size <- py_floordiv au_patches nchunks ;;
  im_lo <- np_mul image_chunk_size chunk_idx ;;
  im_hi <- np_mul image_chunk_size (chunk_idx + 1) ;;
  im_range <- arange im_lo im_hi ;;
  au_range <- arange (audio_chunk_size * chunk_idx)
                     (audio_chunk_size * (chunk_idx + 1)) ;;
  ret (mkSubsampling im_range au_range None).

(** *** Calls into the framework *)

Definition set_grad (g : bool) (w : World) : World :=
  mkWorld (rng w) (training w) (net w) (optim w) g (trace w).

Definition model_to : M unit := emit ModelTo.

Definition set_training (b : bool) (ev : Event) : M unit := fun w =>
  Ok tt (mkWorld (rng w) b (net w) (optim w) (grad_enabled w) (trace w ++ [ev])).

Definition model_train : M unit := set_training true ModelTrain.
Definition model_eval : M unit := set_training false ModelEval.

(** [{k: batch[k].to(device) for k in batch.keys()}]: the same tensors. *)
Definition to_device (batch : Batch Tensor) : M (Batch Tensor) :=
  ret (mkBatch (image batch) (audio batch) (label batch)).

(** [t.shape] as Python integers. *)
Definition py_shape (t : Tensor) : list Z := map Z.of_N (shape t).

Definition model_call (batch : Batch Tensor) (subsample : Subsampling) : M Tensor :=
  fun w =>
    Ok (forward (training w) (net w) batch subsample)
       (mkWorld (rng w) (training w) (net w) (optim w) (grad_enabled w)
                (trace w ++ [Forward (training w) (grad_enabled w)])).

Definition optimizer_zero_grad : M unit := fun w =>
  Ok tt (mkWorld (rng w) (training w) (zero_grad (net w)) (optim w)
                 (grad_enabled w) (trace w ++ [ZeroGrad])).

Definition loss_backward (batch : Batch Tensor) (subsample : Subsampling) : M unit :=
  fun w =>
    Ok tt (mkWorld (rng w) (training w)
                   (backward (training w) (net w) batch subsample) (optim w)
                   (grad_enabled w) (trace w ++ [Backward])).

Definition optimizer_step : M unit := fun w =>
  let '(o, n) := opt_step (optim w) (net w) in
  Ok tt (mkWorld (rng w) (training w) n o (grad_enabled w)
                 (trace w ++ [OptimizerStep])).

Definition wandb_log (obs : list (String.string * Q)) : M unit := emit (WandbLog obs).

(** [with torch.inference_mode(): body]; the mode is restored on the way
    out, also when [body] raises. *)
Definition inference_mode {A} (body : M A) : M A := fun w =>
  match body (set_grad false w) with
  | Ok a w' => Ok a (set_grad (grad_enabled w) w')
  | Raise e w' => Raise e (set_grad (grad_enabled w) w')
  end.

(** [f1_score(y_true, y_pred, average='weighted')]; lists of different
    lengths are a [ValueError]. *)
Definition f1_score (y_true y_pred : list Z) : M Q :=
  if Nat.eqb (length y_true) (length y_pred)
  then ret (Metrics.weighted_f1 y_true y_pred)
  else raise ValueError.

(** [total / len(dataloader)] *)
Definition py_truediv (total : Q) (n : nat) : M Q :=
  match n with
  | O => raise ZeroDivisionError
  | S _ => ret (total / inject_Z (Z.of_nat n))%Q
  end.

(** ** [train_step] *)
Definition train_body (acc : Q * Q) (batch : Batch Tensor) : M (Q * Q) :=
  let '(train_loss, train_fscore) := acc in
  batch <- to_device batch ;;
  subsample <- generate_subsampling 32 16 (py_shape (image batch))
                                          (py_shape (audio batch)) ;;
  y_pred <- model_call batch subsample ;;
  let y := label batch in
  let loss := loss_fn y_pred y in
  let train_loss := (train_loss + loss)%Q in
  optimizer_zero_grad ;;
  loss_backward batch subsample ;;
  optimizer_step ;;
  let y_pred_class := argmax_dim1 (softmax_dim1 y_pred) in
  f1 <- f1_score (argmax_dim1 y) y_pred_class ;;
  let train_fscore := (train_fscore + f1)%Q in
  wandb_log [("batch train loss"%string, loss)] ;;
  ret (train_loss, train_fscore).

Definition train_step (dataloader : list (Batch Tensor)) : M (Q * Q) :=
  model_train ;;
  ' (train_loss, train_fscore) <- for_each dataloader (0%Q, 0%Q) train_body ;;
  avg_train_loss <- py_truediv train_loss (length dataloader) ;;
  avg_train_f1 <- py_truediv train_fscore (length dataloader) ;;
  ret (avg_train_loss, avg_train_f1).

(** ** [val_step] *)
Definition val_body (acc : Q * Q) (batch : Batch Tensor) : M (Q * Q) :=
  let '(val_loss, val_fscore) := acc in
  batch <- to_device batch ;;
  subsample <- generate_subsampling 32 16 (py_shape (image batch))
                                          (py_shape (audio batch)) ;;
  y_pred <- model_call batch subsample ;;
  let y := label batch in
  let loss := loss_fn y_pred y in
  let val_loss := (val_loss + loss)%Q in
  let y_pred_class := argmax_dim1 (softmax_dim1 y_pred) in
  f1 <- f1_score (argmax_dim1 y) y_pred_class ;;
  let val_fscore := (val_fscore + f1)%Q in
  ret (val_loss, val_fscore).

Definition val_step (dataloader : list (Batch Tensor)) : M (Q * Q) :=
  model_eval ;;
  ' (val_loss, val_fscore) <-
      inference_mode (for_each dataloader (0%Q, 0%Q) val_body) ;;
  avg_val_loss <- py_truediv val_loss (length dataloader) ;;
  avg_val_f1 <- py_truediv val_fscore (length dataloader) ;;
  ret (avg_val_loss, avg_val_f1).

(** ** [test_step] and [test_for_eval] *)
Definition test_body (acc : list Z * list Z) (batch : Batch Tensor)
  : M (list Z * list Z) :=
  let '(gold, pred) := acc in
  batch <- to_device batch ;;
  subsample <- generate_subsampling 32 16 (py_shape (image batch))
                                          (py_shape (audio batch)) ;;
  test_pred_logits <- model_call batch subsample ;;
  let test_pred_labels := argmax_dim1 test_pred_logits in
  let pred := pred ++ test_pred_labels in
  let gold := gold ++ argmax_dim1 (label batch) in
  ret (gold, pred).

Definition test_step (dataloader : list (Batch Tensor)) : M Q :=
  ' (gold, pred) <- inference_mode (for_each dataloader ([], []) test_body) ;;
  test_acc <- f1_score gold pred ;;
  ret test_acc.

Definition test_for_eval (dataloader : list (Batch Tensor))
  : M (Q * list Z * list Z) :=
  ' (gold, pred) <- inference_mode (for_each dataloader ([], []) test_body) ;;
  test_acc <- f1_score gold pred ;;
  ret (test_acc, gold, pred).

(** ** [train] *)

(** The local variables of [train] that live across epochs. *)
Record Locals : Type := mkLocals {
  train_losses : list Q;
  val_losses : list Q;
  train_fscores : list Q;
  val_fscores : list Q;
  prev_val_score : Q;
  no_improv_epochs : Z
}.

Definition Qlt_bool (x y : Q) : bool := negb (Qle_bool y x).

(** A loop body either goes on with new locals or executes [return]. *)
Inductive Flow : Type :=
| Continue (st : Locals)
| Return.

Definition py_range (n : Z) : list Z := map Z.of_nat (seq 0 (Z.to_nat n)).

Section Train.

Variables train_dataloader val_dataloader : list (Batch Tensor).
Variable patience : Z.

(** One pass through the body of [for epoch in range(epochs)]. *)
Definition train_epoch (st : Locals) (epoch : Z) : M Flow :=
  ' (avg_train_loss, avg_train_f1) <- train_step train_dataloader ;;
  emit (TrainStepReturned avg_train_loss avg_train_f1) ;;
  ' (avg_val_loss, avg_val_f1) <- val_step val_dataloader ;;
  emit (ValStepReturned avg_val_loss avg_val_f1) ;;
  let no_improv_epochs :=
    if Qlt_bool avg_val_f1 (prev_val_score st)
    then no_improv_epochs st + 1 else no_improv_epochs st in
  let prev_val_score := avg_val_f1 in
  emit (StopStateUpdated prev_val_score no_improv_epochs) ;;
  if patience <=? no_improv_epochs then ret Return
  else
    emit (MetricsAppended avg_train_loss avg_train_f1 avg_val_loss avg_val_f1) ;;
    wandb_log [("train loss"%string, avg_train_loss); ("val loss"%string, avg_val_loss);
               ("train F1"%string, avg_train_f1); ("val F1"%string, avg_val_f1);
               ("epoch"%string, inject_Z epoch)] ;;
    ret (Continue (mkLocals (train_losses st ++ [avg_train_loss])
                            (val_losses st ++ [avg_val_loss])
                            (train_fscores st ++ [avg_train_f1])
                            (val_fscores st ++ [avg_val_f1])
                            prev_val_score no_improv_epochs)).

(** The loop over the epochs; [Return] is the early [return None],
    [Continue] the exhausted range. *)
Fixpoint train_epochs (epochs : list Z) (st : Locals) : M Flow :=
  match epochs with
  | [] => ret (Continue st)
  | epoch :: rest =>
      flow <- train_epoch st epoch ;;
      match flow with
      | Continue st' => train_epochs rest st'
      | Return => ret Return
      end
  end.

Definition init_locals : Locals := mkLocals [] [] [] [] 0%Q 0.

Definition train (epochs : Z) : M unit :=
  model_to ;;
  train_epochs (py_range epochs) init_locals ;;
  ret tt.

End Train.

End Loop.

Arguments Raise {T A} e w.

(** * Vocabulary of the properties *)

Section Vocabulary.

Context {T : Torch}.

(** The world after one draw from the random source. *)
Definition after_draw (w : World) : World :=
  mkWorld (advance (rng w)) (training w) (net w) (optim w) (grad_enabled w)
          (trace w).

(** The index chosen by [generate_subsampling nchunks ..] in the world [w]. *)
Definition chunk_idx_of (nchunks : Z) (w : World) : Z := pick 0 nchunks (rng w).


(** The world left by an outcome. *)
Definition world_of {A} (o : Outcome A) : World :=
  match o with
  | Ok _ w => w
  | Raise _ w => w
  end.

(** [w'] differs from [w] in the random source at most. *)
Definition same_but_rng (w w' : World) : Prop :=
  training w' = training w /\ net w' = net w /\ optim w' = optim w
  /\ grad_enabled w' = grad_enabled w /\ trace w' = trace w.

(** The subsampling of a batch, as the step functions request it. *)
Definition subsample (b : Batch Tensor) : M Subsampling :=
  generate_subsampling 32 16 (py_shape (image b)) (py_shape (audio b)).

(** A batch whose shapes are those of tensors the loop can subsample: the
    audio has a length entry and the image has fewer than [2 ^ 62] inner
    positions. *)
Definition well_shaped (b : Batch Tensor) : bool :=
  (2 <=? length (shape (audio b)))%nat
  && (list_prod (slice_1_m1 (py_shape (image b))) <? 2 ^ 62).

(** Loss and F1 of the batch [b] for the subsampling [s] in the world [w]. *)
Definition logits_at (b : Batch Tensor) (s : Subsampling) (w : World) : Tensor :=
  forward (training w) (net w) b s.

Definition loss_at (b : Batch Tensor) (s : Subsampling) (w : World) : Q :=
  loss_fn (logits_at b s w) (label b).

Definition f1_at (b : Batch Tensor) (s : Subsampling) (w : World) : Q :=
  Metrics.weighted_f1 (argmax_dim1 (label b))
                      (argmax_dim1 (softmax_dim1 (logits_at b s w))).

(** The world after the model was called once. *)
Definition forwarded (w : World) : World :=
  mkWorld (rng w) (training w) (net w) (optim w) (grad_enabled w)
          (trace w ++ [Forward (training w) (grad_enabled w)]).

(** The world after the model was called and updated on one batch. *)
Definition trained (b : Batch Tensor) (s : Subsampling) (w : World) : World :=
  let '(o, n) := opt_step (optim w) (backward (training w) (zero_grad (net w)) b s) in
  mkWorld (rng w) (training w) n o (grad_enabled w)
          (trace w ++ [Forward (training w) (grad_enabled w); ZeroGrad; Backward;
                       OptimizerStep;
                       WandbLog [("batch train loss"%string, loss_at b s w)]]).

(** A loop body that adds a loss and a score, which do not depend on the
    running totals, to the running totals. *)
Definition accumulating (body : Q * Q -> Batch Tensor -> M (Q * Q)) : Prop :=
  forall b w,
    (exists l f w', forall acc,
        body acc b w = Ok ((fst acc + l)%Q, (snd acc + f)%Q) w')
    \/ (exists e w', forall acc, body acc b w = Raise e w').

(** Arithmetic mean of a list of rationals. *)
Definition Qmean (l : list Q) : Q :=
  (Metrics.Qsum l / inject_Z (Z.of_nat (length l)))%Q.

End Vocabulary.

(** *** The epochs of a run, as they show in the trace *)

(** The events of [train] itself: the returns of the two steps, the update of
    the stopping state, the appends, and the per-epoch [wandb.log], which is the
    one with the key ['epoch']. *)
Definition is_epoch_event (ev : Event) : bool :=
  match ev with
  | TrainStepReturned _ _ | ValStepReturned _ _ | StopStateUpdated _ _
  | MetricsAppended _ _ _ _ => true
  | WandbLog obs => existsb (fun kv => String.eqb (fst kv) "epoch") obs
  | _ => false
  end.

Definition epoch_view (tr : list Event) : list Event := filter is_epoch_event tr.

(** One executed epoch: its index, its four metrics, and the no-improvement
    counter after its update. *)
Record Epoch : Type := mkEpoch {
  ep_index : Z;
  ep_train_loss : Q;
  ep_train_f1 : Q;
  ep_val_loss : Q;
  ep_val_f1 : Q;
  ep_count : Z
}.

(** The counter after an epoch with validation F1 [vf]. *)
Definition next_count (prev : Q) (count : Z) (vf : Q) : Z :=
  if Qlt_bool vf prev then count + 1 else count.

(** What every executed epoch leaves in the trace ... *)
Definition head_block (r : Epoch) : list Event :=
  [TrainStepReturned (ep_train_loss r) (ep_train_f1 r);
   ValStepReturned (ep_val_loss r) (ep_val_f1 r);
   StopStateUpdated (ep_val_f1 r) (ep_count r)].

(** ... and what an epoch that does not stop the run adds. *)
Definition tail_block (r : Epoch) : list Event :=
  [MetricsAppended (ep_train_loss r) (ep_train_f1 r) (ep_val_loss r) (ep_val_f1 r);
   WandbLog [("train loss"%string, ep_train_loss r);
             ("val loss"%string, ep_val_loss r);
             ("train F1"%string, ep_train_f1 r);
             ("val F1"%string, ep_val_f1 r);
             ("epoch"%string, inject_Z (ep_index r))]].

Definition epoch_block (patience : Z) (r : Epoch) : list Event :=
  if patience <=? ep_count r then head_block r else head_block r ++ tail_block r.

(** The counters of consecutive epochs with the validation scores [vs]. *)
Fixpoint counts_from (prev : Q) (count : Z) (vs : list Q) : list Z :=
  match vs with
  | [] => []
  | vf :: vs' =>
      next_count prev count vf :: counts_from vf (next_count prev count vf) vs'
  end.

(** The epochs [rows] are a run of [train_epochs] over the indices [es] from
    the stopping state [(prev, count)]; [stopped] tells whether it ended by
    the early [return]. *)
Inductive run_shape (patience : Z)
  : list Z -> Q -> Z -> list Epoch -> bool -> Prop :=
| run_done prev count :
    run_shape patience [] prev count [] false
| run_stop e es prev count r :
    ep_index r = e ->
    ep_count r = next_count prev count (ep_val_f1 r) ->
    (0 <= ep_val_f1 r)%Q ->
    patience <= ep_count r ->
    run_shape patience (e :: es) prev count [r] true
| run_more e es prev count r rows stopped :
    ep_index r = e ->
    ep_count r = next_count prev count (ep_val_f1 r) ->
    (0 <= ep_val_f1 r)%Q ->
    ep_count r < patience ->
    run_shape patience es (ep_val_f1 r) (ep_count r) rows stopped ->
    run_shape patience (e :: es) prev count (r :: rows) stopped.

(** The reading of the specification of [train]: in every executed epoch the
    update of the stopping state is followed by the appends and by the
    per-epoch log. *)
Definition recorded_in_every_epoch (view : list Event) : Prop :=
  forall i prev count,
    nth_error view i = Some (StopStateUpdated prev count) ->
    exists tl tf vl vf obs,
      nth_error view (S i) = Some (MetricsAppended tl tf vl vf)
      /\ nth_error view (S (S i)) = Some (WandbLog obs).

Section Quiet.

Context {T : Torch}.

(** [w'] extends the trace of [w] by events that are not of [train]. *)
Definition quiet (w w' : World) : Prop :=
  exists added, trace w' = trace w ++ added /\ epoch_view added = [].

(** [w'] extends the trace of [w], and [evs] are the events of [train] among
    the new ones. *)
Definition adds (w w' : World) (evs : list Event) : Prop :=
  exists added, trace w' = trace w ++ added /\ epoch_view added = evs.

(** The locals after the epochs [rows] were appended to those of [st]. *)
Definition locals_after (st : Locals) (rows : list Epoch) : Locals :=
  mkLocals (train_losses st ++ map ep_train_loss rows)
           (val_losses st ++ map ep_val_loss rows)
           (train_fscores st ++ map ep_train_f1 rows)
           (val_fscores st ++ map ep_val_f1 rows)
           (last (map ep_val_f1 rows) (prev_val_score st))
           (last (map ep_count rows) (no_improv_epochs st)).

End Quiet.

(** * A small instance of the interface

    A model that can be run: a tensor is its shape and its per-row classes,
    the model counts the optimizer steps it has seen, and it predicts the
    class of a sample correctly as long as the identifier carried by the image
    of the batch is below [7 - 2 * steps]. *)
Module Toy.

Record tensor : Type := mkTensor { t_shape : list N; t_classes : list Z }.

Definition toy_forward (tr : bool) (steps : nat) (b : Batch tensor)
    (s : Subsampling) : tensor :=
  let id := hd 0 (t_classes (image b)) in
  mkTensor [] (map (fun y => if id <? 7 - 2 * Z.of_nat steps then y else y + 1)
                   (t_classes (label b))).

(** Number of rows whose class differs. *)
Definition mismatches (a b : list Z) : Z :=
  Z.of_nat (length (filter (fun p => negb (fst p =? snd p)) (combine a b))).

#[refine] Instance torch : Torch := {
  Tensor := tensor;
  Net := nat;
  Optim := nat;
  shape := t_shape;
  argmax_dim1 := t_classes;
  softmax_dim1 := fun t => t;
  forward := toy_forward;
  loss_fn := fun y_pred y => inject_Z (mismatches (t_classes y_pred) (t_classes y));
  zero_grad := fun n => n;
  backward := fun _ n _ _ => n;
  opt_step := fun o n => (S o, S n)
}.
Proof.
  - reflexivity.
  - intros tr n b s. cbn. now rewrite length_map.
Defined.

(** A batch of an 8 x 8 image with 3 channels and 1024 audio samples. *)
Definition batch (id : Z) (labels : list Z) : Batch tensor :=
  mkBatch (mkTensor [1; 8; 8; 3]%N [id]) (mkTensor [1; 1024]%N [])
          (mkTensor [1; 2]%N labels).

Definition world0 : World :=
  mkWorld (mkRandom (fun _ => 7) 0) false 0%nat 0%nat true [].

Definition train_data : list (Batch tensor) := [batch 0 [0; 1; 1]].

Definition val_data : list (Batch tensor) :=
  map (fun i => batch (Z.of_nat i) [0]) (seq 0 10).

(** Two batches of three samples and of one sample: without a training step
    the first is predicted without an error and the second is not. *)
Definition mixed_data : list (Batch tensor) := [batch 0 [0; 1; 1]; batch 9 [0]].

End Toy.

(** * Vocabulary of the further properties *)

(** What one batch of [train_step] leaves in the trace, for the loss [l] of
    the batch and the gradient mode [g]. *)
Definition batch_block (g : bool) (l : Q) : list Event :=
  [Forward true g; ZeroGrad; Backward; OptimizerStep;
   WandbLog [("batch train loss"%string, l)]].

(** The scores [vs] never fall below the score before them, [prev] first. *)
Fixpoint never_falls (prev : Q) (vs : list Q) : Prop :=
  match vs with
  | [] => True
  | vf :: vs' => (prev <= vf)%Q /\ never_falls vf vs'
  end.

(** The number of scores of [vs] that are below the score before them,
    [prev] first. *)
Fixpoint drops (prev : Q) (vs : list Q) : Z :=
  match vs with
  | [] => 0
  | vf :: vs' => (if Qlt_bool vf prev then 1 else 0) + drops vf vs'
  end.

(** A batch whose audio tensor has no second dimension, between well-shaped
    ones. *)
Definition toy_flat_audio : Batch Toy.tensor :=
  mkBatch (Toy.mkTensor [1; 8; 8; 3]%N [0]) (Toy.mkTensor [1024]%N [])
          (Toy.mkTensor [1; 2]%N [0]).

(** * Properties *)

(** ** Arithmetic of the 64-bit product *)

Lemma wrap64_small (z : Z) : - 2 ^ 63 <= z < 2 ^ 63 -> wrap64 z = z.
Proof.
  intros H. unfold wrap64. rewrite Z.mod_small; lia.
Qed.

Lemma wrap64_shift (y m : Z) : wrap64 (y + m * 2 ^ 64) = wrap64 y.
Proof.
  unfold wrap64.
  replace (y + m * 2 ^ 64 + 2 ^ 63) with (y + 2 ^ 63 + m * 2 ^ 64) by ring.
  now rewrite Z_mod_plus_full.
Qed.

Lemma wrap64_mul_l (a d : Z) : wrap64 (wrap64 a * d) = wrap64 (a * d).
Proof.
  assert (E : wrap64 a = a + (- ((a + 2 ^ 63) / 2 ^ 64)) * 2 ^ 64).
  { unfold wrap64. rewrite Z.mod_eq by lia. ring. }
  rewrite E.
  replace ((a + - ((a + 2 ^ 63) / 2 ^ 64) * 2 ^ 64) * d)
    with (a * d + (- ((a + 2 ^ 63) / 2 ^ 64) * d) * 2 ^ 64) by ring.
  apply wrap64_shift.
Qed.

Lemma np_prod_from (dims : list Z) (a : Z) :
  fold_left (fun acc d => wrap64 (acc * d)) dims (wrap64 a)
  = wrap64 (fold_left Z.mul dims a).
Proof.
  revert a. induction dims as [|d dims IH]; intros a; simpl.
  - reflexivity.
  - rewrite wrap64_mul_l. apply IH.
Qed.

Lemma np_prod_wraps (dims : list Z) : np_prod dims = wrap64 (list_prod dims).
Proof.
  unfold np_prod, list_prod.
  rewrite <- np_prod_from. now rewrite (wrap64_small (z := 1)) by lia.
Qed.

Lemma fold_mul_nonneg (dims : list Z) (a : Z) :
  0 <= a -> Forall (fun d => 0 <= d) dims -> 0 <= fold_left Z.mul dims a.
Proof.
  revert a. induction dims as [|d dims IH]; intros a Ha Hd; simpl.
  - exact Ha.
  - inversion Hd; subst. apply IH; [nia | assumption].
Qed.

Lemma list_prod_nonneg (dims : list Z) :
  Forall (fun d => 0 <= d) dims -> 0 <= list_prod dims.
Proof. apply fold_mul_nonneg. lia. Qed.

Lemma np_prod_exact (dims : list Z) :
  Forall (fun d => 0 <= d) dims -> list_prod dims < 2 ^ 63 ->
  np_prod dims = list_prod dims.
Proof.
  intros Hd Hp. rewrite np_prod_wraps. apply wrap64_small.
  pose proof (list_prod_nonneg Hd). lia.
Qed.

Lemma Forall_nonneg_slice (shape : list Z) :
  Forall (fun d => 0 <= d) shape -> Forall (fun d => 0 <= d) (slice_1_m1 shape).
Proof.
  intros H. unfold slice_1_m1. apply Forall_forall. intros x Hx.
  rewrite Forall_forall in H. apply H.
  destruct shape as [|d shape]; simpl in *; [contradiction|].
  right. revert Hx. clear. induction shape as [|e shape IH]; simpl.
  - contradiction.
  - destruct shape as [|f shape]; [contradiction|].
    intros [->|Hx]; [now left | right; now apply IH].
Qed.

(** ** Index ranges *)






Lemma pick_range (n : Z) (r : Random) : 0 <= n -> 0 <= pick 0 n r <= n.
Proof.
  intros H. unfold pick.
  pose proof (Z.mod_pos_bound (next_draw r) (n - 0 + 1)). lia.
Qed.

Lemma pick_constant (n v : Z) (c : nat) :
  0 <= v <= n -> pick 0 n (mkRandom (fun _ => v) c) = v.
Proof.
  intros H. unfold pick, next_draw. simpl. rewrite Z.mod_small; lia.
Qed.

(** ** Rationals *)

Lemma Qplus_nonneg (a b : Q) : (0 <= a -> 0 <= b -> 0 <= a + b)%Q.
Proof. intros Ha Hb. apply (Qplus_le_compat 0 a 0 b Ha Hb). Qed.

Lemma Qdiv_nonneg (a b : Q) : (0 <= a -> 0 <= b -> 0 <= a / b)%Q.
Proof.
  intros Ha Hb. unfold Qdiv. apply Qmult_le_0_compat; [exact Ha|].
  now apply Qinv_le_0_compat.
Qed.

Lemma Qsum_nonneg (l : list Q) :
  Forall (fun q => (0 <= q)%Q) l -> (0 <= Metrics.Qsum l)%Q.
Proof.
  induction 1 as [|q l Hq Hl IH]; simpl.
  - apply Qle_refl.
  - now apply Qplus_nonneg.
Qed.

Lemma true_pos_nonneg (c : Z) (g p : list Z) : 0 <= Metrics.true_pos c g p.
Proof.
  revert p. induction g as [|x g IH]; intros [|y p]; simpl; try lia.
  specialize (IH p). destruct ((x =? c) && (y =? c)); lia.
Qed.

Lemma class_f1_nonneg (c : Z) (g p : list Z) : (0 <= Metrics.class_f1 c g p)%Q.
Proof.
  unfold Metrics.class_f1.
  destruct (Metrics.count c g + Metrics.count c p =? 0); [apply Qle_refl|].
  unfold Qle. cbn [Qnum Qden]. pose proof (true_pos_nonneg c g p). lia.
Qed.

Lemma weighted_f1_nonneg (g p : list Z) : (0 <= Metrics.weighted_f1 g p)%Q.
Proof.
  unfold Metrics.weighted_f1.
  destruct (Z.of_nat (length g) =? 0); [apply Qle_refl|].
  apply Qdiv_nonneg.
  - apply Qsum_nonneg, Forall_forall. intros q Hq.
    apply in_map_iff in Hq as (c & <- & _).
    apply Qmult_le_0_compat; [|apply class_f1_nonneg].
    unfold Qle, Metrics.count, inject_Z. cbn [Qnum Qden]. lia.
  - unfold Qle, inject_Z. cbn [Qnum Qden]. lia.
Qed.

(** ** [generate_subsampling] *)

Section SubsamplingFacts.

Context {T : Torch}.

Lemma randint_ok (n : Z) (w : World) :
  0 <= n -> randint 0 n w = Ok (chunk_idx_of n w) (after_draw w).
Proof.
  intros H. unfold randint. destruct (n <? 0) eqn:E; [lia|]. reflexivity.
Qed.

Lemma generate_subsampling_ok (nchunks spp : Z) (im_shape au_shape : list Z)
    (au_len : Z) (w : World) :
  1 <= nchunks < 2 ^ 62 -> 1 <= spp ->
  Forall (fun d => 0 <= d) im_shape ->
  list_prod (slice_1_m1 im_shape) < 2 ^ 62 ->
  nth_error au_shape 1 = Some au_len -> 0 <= au_len ->
  let idx := chunk_idx_of nchunks w in
  let ics := list_prod (slice_1_m1 im_shape) / nchunks in
  let acs := au_len / spp / nchunks in
  generate_subsampling nchunks spp im_shape au_shape w
  = Ok (mkSubsampling (arange_list (ics * idx) (ics * (idx + 1)))
                      (arange_list (acs * idx) (acs * (idx + 1))) None)
       (after_draw w).
Proof.
  intros Hn Hs Him Hp Hau Hlen idx ics acs.
  assert (Hidx : 0 <= idx <= nchunks) by (apply pick_range; lia).
  assert (Hprod : 0 <= list_prod (slice_1_m1 im_shape))
    by (apply list_prod_nonneg, Forall_nonneg_slice, Him).
  assert (Hics : 0 <= ics /\ ics * nchunks <= list_prod (slice_1_m1 im_shape)).
  { subst ics. split; [apply Z.div_pos; lia|].
    rewrite Z.mul_comm. apply Z.mul_div_le. lia. }
  assert (Hacs : 0 <= acs).
  { subst acs. apply Z.div_pos; [apply Z.div_pos|]; lia. }
  unfold generate_subsampling, bind.
  rewrite randint_ok by lia. fold idx.
  unfold np_floordiv, int64_range.
  replace ((- 2 ^ 63 <=? nchunks) && (nchunks <? 2 ^ 63)) with true
    by (symmetry; apply andb_true_iff; split; lia).
  cbn [negb]. unfold ret.
  destruct (nchunks =? 0) eqn:E0; [lia|]. unfold ret.
  rewrite np_prod_exact by (try apply Forall_nonneg_slice; trivial; lia).
  fold ics. rewrite (wrap64_small (z := ics)) by nia.
  unfold index. rewrite Hau. unfold ret, py_floordiv.
  destruct (spp =? 0) eqn:E1; [lia|]. unfold ret.
  rewrite E0. fold acs.
  unfold np_mul, int64_range.
  replace ((- 2 ^ 63 <=? idx) && (idx <? 2 ^ 63)) with true
    by (symmetry; apply andb_true_iff; split; lia).
  replace ((- 2 ^ 63 <=? idx + 1) && (idx + 1 <? 2 ^ 63)) with true
    by (symmetry; apply andb_true_iff; split; lia).
  cbn [negb]. unfold ret.
  rewrite (wrap64_small (z := ics * idx)) by nia.
  rewrite (wrap64_small (z := ics * (idx + 1))) by nia.
  unfold arange.
  destruct (ics * (idx + 1) <? ics * idx) eqn:E2; [nia|].
  destruct (acs * (idx + 1) <? acs * idx) eqn:E3; [nia|].
  reflexivity.
Qed.




End SubsamplingFacts.



(** ** The loop bodies *)

Section StepFacts.

Context {T : Torch}.

Lemma to_device_same (b : Batch Tensor) :
  mkBatch (image b) (audio b) (label b) = b.
Proof. now destruct b. Qed.

Lemma f1_score_ok (g p : list Z) (w : World) :
  length g = length p -> f1_score g p w = Ok (Metrics.weighted_f1 g p) w.
Proof.
  intros E. unfold f1_score. rewrite E, Nat.eqb_refl. reflexivity.
Qed.

Lemma logits_rows (b : Batch Tensor) (s : Subsampling) (w : World) :
  length (argmax_dim1 (label b))
  = length (argmax_dim1 (softmax_dim1 (logits_at b s w))).
Proof.
  unfold logits_at. now rewrite softmax_rows, forward_rows.
Qed.

Lemma val_body_eq (acc : Q * Q) (b : Batch Tensor) (w : World) :
  val_body acc b w
  = match subsample b w with
    | Ok s w1 => Ok ((fst acc + loss_at b s w1)%Q, (snd acc + f1_at b s w1)%Q)
                    (forwarded w1)
    | Raise e w1 => Raise e w1
    end.
Proof.
  destruct acc as [a1 a2]. unfold val_body, bind, to_device, ret.
  cbn [image audio label]. fold (subsample b).
  destruct (subsample b w) as [s w1|e w1]; [|reflexivity].
  unfold model_call. rewrite to_device_same.
  rewrite f1_score_ok by apply (logits_rows b s w1). reflexivity.
Qed.

Lemma train_body_eq (acc : Q * Q) (b : Batch Tensor) (w : World) :
  train_body acc b w
  = match subsample b w with
    | Ok s w1 => Ok ((fst acc + loss_at b s w1)%Q, (snd acc + f1_at b s w1)%Q)
                    (trained b s w1)
    | Raise e w1 => Raise e w1
    end.
Proof.
  destruct acc as [a1 a2]. unfold train_body, bind, to_device, ret.
  cbn [image audio label]. fold (subsample b).
  destruct (subsample b w) as [s w1|e w1]; [|reflexivity].
  unfold model_call, optimizer_zero_grad, loss_backward, optimizer_step, trained.
  rewrite to_device_same. cbn [rng training net optim grad_enabled trace].
  destruct (opt_step (optim w1) (backward (training w1) (zero_grad (net w1)) b s))
    as [o n] eqn:E.
  rewrite f1_score_ok by apply (logits_rows b s w1).
  unfold wandb_log, emit. cbn [rng training net optim grad_enabled trace].
  rewrite <- !app_assoc. reflexivity.
Qed.

Lemma test_body_eq (acc : list Z * list Z) (b : Batch Tensor) (w : World) :
  test_body acc b w
  = match subsample b w with
    | Ok s w1 => Ok (fst acc ++ argmax_dim1 (label b),
                     snd acc ++ argmax_dim1 (logits_at b s w1))
                    (forwarded w1)
    | Raise e w1 => Raise e w1
    end.
Proof.
  destruct acc as [g p]. unfold test_body, bind, to_device, ret.
  cbn [image audio label]. fold (subsample b).
  destruct (subsample b w) as [s w1|e w1]; [|reflexivity].
  unfold model_call. rewrite to_device_same. reflexivity.
Qed.

Lemma subsample_frame (b : Batch Tensor) (w : World) :
  same_but_rng w (world_of (subsample b w)).
Proof.
  unfold subsample, generate_subsampling, bind, randint, np_floordiv, np_mul,
    index, py_floordiv, arange, ret, raise.
  repeat match goal with
         | |- context [if ?c then _ else _] => destruct c
         | |- context [match nth_error ?l ?i with _ => _ end] =>
             destruct (nth_error l i)
         end;
    cbn; repeat split.
Qed.

Lemma subsample_ok (b : Batch Tensor) (w : World) :
  well_shaped b = true -> exists s, subsample b w = Ok s (after_draw w).
Proof.
  unfold well_shaped. intros H. apply andb_true_iff in H as [Hlen Hp].
  apply Nat.leb_le in Hlen. apply Z.ltb_lt in Hp.
  destruct (nth_error (py_shape (audio b)) 1) as [au_len|] eqn:E.
  - eexists. unfold subsample.
    apply generate_subsampling_ok with (au_len := au_len); try lia; trivial.
    + unfold py_shape. apply Forall_forall. intros d Hd.
      apply in_map_iff in Hd as (n & <- & _). lia.
    + apply nth_error_In in E. unfold py_shape in E.
      apply in_map_iff in E as (n & <- & _). lia.
  - apply nth_error_None in E. unfold py_shape in E.
    rewrite length_map in E. lia.
Qed.

Lemma val_body_accumulating : accumulating val_body.
Proof.
  intros b w. destruct (subsample b w) as [s w1|e w1] eqn:E.
  - left. exists (loss_at b s w1), (f1_at b s w1), (forwarded w1).
    intros acc. now rewrite val_body_eq, E.
  - right. exists e, w1. intros acc. now rewrite val_body_eq, E.
Qed.

Lemma train_body_accumulating : accumulating train_body.
Proof.
  intros b w. destruct (subsample b w) as [s w1|e w1] eqn:E.
  - left. exists (loss_at b s w1), (f1_at b s w1), (trained b s w1).
    intros acc. now rewrite train_body_eq, E.
  - right. exists e, w1. intros acc. now rewrite train_body_eq, E.
Qed.

(** The running totals of a loop are the initial totals plus the sums of the
    per-batch values. *)
Lemma for_each_sums (body : Q * Q -> Batch Tensor -> M (Q * Q))
    (U : accumulating body) (data : list (Batch Tensor)) :
  forall (acc : Q * Q) (w : World),
    match map_each data (body (0, 0)%Q) w with
    | Ok vals w' =>
        exists r, for_each data acc body w = Ok r w'
                  /\ (fst r == fst acc + Metrics.Qsum (map fst vals))%Q
                  /\ (snd r == snd acc + Metrics.Qsum (map snd vals))%Q
    | Raise e w' => for_each data acc body w = Raise e w'
    end.
Proof.
  induction data as [|b data IH]; intros acc w.
  - simpl. unfold ret. exists acc. split; [reflexivity|].
    unfold Metrics.Qsum. simpl. split; ring.
  - cbn [map_each for_each]. unfold bind.
    destruct (U b w) as [(l & f & w1 & H)|(e & w1 & H)].
    + rewrite (H acc), (H (0, 0)%Q).
      specialize (IH ((fst acc + l)%Q, (snd acc + f)%Q) w1).
      destruct (map_each data (body (0, 0)%Q) w1) as [vals w2|e w2].
      * destruct IH as (r & Hr & H1 & H2). unfold ret.
        exists r. split; [exact Hr|]. unfold Metrics.Qsum in *.
        cbn [map fst snd fold_right] in *.
        split; [rewrite H1 | rewrite H2]; ring.
      * exact IH.
    + now rewrite (H acc), (H (0, 0)%Q).
Qed.

End StepFacts.

(** ** The loops over the batches *)

Section LoopFacts.

Context {T : Torch}.

Lemma quiet_refl (w : World) : quiet w w.
Proof. exists []. now rewrite app_nil_r. Qed.

Lemma quiet_trans (w1 w2 w3 : World) : quiet w1 w2 -> quiet w2 w3 -> quiet w1 w3.
Proof.
  intros (a & Ha & Va) (b & Hb & Vb). exists (a ++ b). split.
  - now rewrite Hb, Ha, app_assoc.
  - unfold epoch_view in *. now rewrite filter_app, Va, Vb.
Qed.

Lemma quiet_step (w w' : World) (evs : list Event) :
  trace w' = trace w ++ evs -> epoch_view evs = [] -> quiet w w'.
Proof. intros H V. now exists evs. Qed.

Lemma subsample_quiet (b : Batch Tensor) (w : World) :
  quiet w (world_of (subsample b w)).
Proof.
  destruct (subsample_frame b w) as (_ & _ & _ & _ & H).
  exists []. now rewrite app_nil_r.
Qed.

(** The validation loop only calls the model. *)
Lemma val_loop_frame (data : list (Batch Tensor)) :
  forall (acc : Q * Q) (w : World),
    let o := for_each data acc val_body w in
    training (world_of o) = training w /\ net (world_of o) = net w
    /\ optim (world_of o) = optim w
    /\ grad_enabled (world_of o) = grad_enabled w
    /\ exists k, (k <= length data)%nat
         /\ trace (world_of o)
            = trace w ++ repeat (Forward (training w) (grad_enabled w)) k
         /\ match o with Ok _ _ => k = length data | Raise _ _ => True end.
Proof.
  induction data as [|b data IH]; intros acc w; cbn zeta.
  - simpl. repeat split. exists 0%nat. simpl. now rewrite app_nil_r.
  - cbn [for_each]. unfold bind. rewrite val_body_eq.
    pose proof (subsample_frame b w) as F.
    destruct (subsample b w) as [s w1|e w1]; cbn [world_of] in F;
      destruct F as (Ft & Fn & Fo & Fg & Ftr).
    + specialize (IH ((fst acc + loss_at b s w1)%Q, (snd acc + f1_at b s w1)%Q)
                     (forwarded w1)).
      cbn zeta in IH. destruct IH as (It & In' & Io & Ig & k & Hk & Itr & Iok).
      cbn [forwarded training net optim grad_enabled trace] in *.
      repeat split; try congruence.
      exists (S k). split; [simpl; lia|]. split.
      * rewrite Itr, Ftr, Ft, Fg. simpl. now rewrite <- app_assoc.
      * destruct (for_each data _ val_body (forwarded w1)); [simpl; lia | exact I].
    + cbn [world_of]. repeat split; trivial.
      exists 0%nat. simpl. split; [lia|]. now rewrite app_nil_r.
Qed.

Lemma trained_quiet (b : Batch Tensor) (s : Subsampling) (w : World) :
  quiet w (trained b s w).
Proof.
  unfold trained. destruct (opt_step _ _) as [o n].
  eapply quiet_step; [reflexivity | reflexivity].
Qed.

(** The training loop leaves no event of [train] in the trace. *)
Lemma train_loop_quiet (data : list (Batch Tensor)) :
  forall (acc : Q * Q) (w : World),
    quiet w (world_of (for_each data acc train_body w)).
Proof.
  induction data as [|b data IH]; intros acc w.
  - apply quiet_refl.
  - cbn [for_each]. unfold bind. rewrite train_body_eq.
    pose proof (subsample_quiet b w) as F.
    destruct (subsample b w) as [s w1|e w1]; cbn [world_of] in F.
    + eapply quiet_trans; [exact F|].
      eapply quiet_trans; [apply trained_quiet | apply IH].
    + exact F.
Qed.

Lemma val_loop_total (data : list (Batch Tensor)) :
  Forall (fun b => well_shaped b = true) data ->
  forall w : World,
    exists vals w', map_each data (val_body (0, 0)%Q) w = Ok vals w'
                    /\ Forall (fun v => (0 <= snd v)%Q) vals.
Proof.
  induction 1 as [|b data Hb Hd IH]; intros w.
  - exists [], w. split; [reflexivity | constructor].
  - cbn [map_each]. unfold bind. rewrite val_body_eq.
    destruct (subsample_ok b w Hb) as (s & ->).
    destruct (IH (forwarded (after_draw w))) as (vals & w' & -> & Hv).
    eexists _, w'. split; [reflexivity|]. constructor; [|exact Hv].
    cbn [snd]. apply Qplus_nonneg; [apply Qle_refl | apply weighted_f1_nonneg].
Qed.

Lemma train_loop_total (data : list (Batch Tensor)) :
  Forall (fun b => well_shaped b = true) data ->
  forall w : World,
    exists vals w', map_each data (train_body (0, 0)%Q) w = Ok vals w'.
Proof.
  induction 1 as [|b data Hb Hd IH]; intros w.
  - now exists [], w.
  - cbn [map_each]. unfold bind. rewrite train_body_eq.
    destruct (subsample_ok b w Hb) as (s & ->).
    destruct (IH (trained b s (after_draw w))) as (vals & w' & ->).
    now eexists _, w'.
Qed.

End LoopFacts.

(** ** [train_step] and [val_step] *)

Section StepResults.

Context {T : Torch}.

Lemma map_each_length {A B} (body : A -> M B) (l : list A) :
  forall (w : World) (ys : list B) (w' : World),
    map_each l body w = Ok ys w' -> length ys = length l.
Proof.
  induction l as [|x l IH]; intros w ys w' H.
  - inversion H. reflexivity.
  - cbn [map_each] in H. unfold bind in H.
    destruct (body x w) as [y w1|e w1]; [|discriminate].
    destruct (map_each l body w1) as [ys' w2|e w2] eqn:E; [|discriminate].
    inversion H; subst. simpl. f_equal. eapply IH, E.
Qed.

Lemma train_step_eq (data : list (Batch Tensor)) (w : World) :
  train_step data w
  = match for_each data (0, 0)%Q train_body (world_of (model_train w)) with
    | Ok r w' =>
        match length data with
        | O => Raise ZeroDivisionError w'
        | S _ => Ok ((fst r / inject_Z (Z.of_nat (length data)))%Q,
                     (snd r / inject_Z (Z.of_nat (length data)))%Q) w'
        end
    | Raise e w' => Raise e w'
    end.
Proof.
  unfold train_step, bind. cbn [model_train set_training world_of].
  destruct (for_each data (0, 0)%Q train_body _) as [[l f] w'|e w']; [|reflexivity].
  unfold py_truediv. destruct (length data); reflexivity.
Qed.

Lemma val_step_eq (data : list (Batch Tensor)) (w : World) :
  val_step data w
  = match for_each data (0, 0)%Q val_body
                   (set_grad false (world_of (model_eval w))) with
    | Ok r w' =>
        match length data with
        | O => Raise ZeroDivisionError (set_grad (grad_enabled w) w')
        | S _ => Ok ((fst r / inject_Z (Z.of_nat (length data)))%Q,
                     (snd r / inject_Z (Z.of_nat (length data)))%Q)
                    (set_grad (grad_enabled w) w')
        end
    | Raise e w' => Raise e (set_grad (grad_enabled w) w')
    end.
Proof.
  unfold val_step, bind, inference_mode.
  cbn [model_eval set_training world_of grad_enabled].
  destruct (for_each data (0, 0)%Q val_body _) as [[l f] w'|e w']; [|reflexivity].
  unfold py_truediv. destruct (length data); reflexivity.
Qed.

Lemma mean_of_totals (total : Q) (vals : list Q) (n : nat) :
  (total == 0 + Metrics.Qsum vals)%Q -> length vals = n ->
  (total / inject_Z (Z.of_nat n) == Qmean vals)%Q.
Proof.
  intros H <-. unfold Qmean. rewrite H, Qplus_0_l. reflexivity.
Qed.

Lemma train_step_means (data : list (Batch Tensor)) (w : World) :
  data <> [] -> Forall (fun b => well_shaped b = true) data ->
  exists vals w1 l f,
    map_each data (train_body (0, 0)%Q) (world_of (model_train w)) = Ok vals w1
    /\ length vals = length data
    /\ train_step data w = Ok (l, f) w1
    /\ (l == Qmean (map fst vals))%Q /\ (f == Qmean (map snd vals))%Q.
Proof.
  intros Hne Hws.
  destruct (train_loop_total Hws (world_of (model_train w))) as (vals & w1 & E).
  pose proof (map_each_length _ _ _ E) as L.
  pose proof (for_each_sums train_body_accumulating data (0, 0)%Q
                            (world_of (model_train w))) as S.
  rewrite E in S. destruct S as (r & Hr & H1 & H2).
  exists vals, w1, (fst r / inject_Z (Z.of_nat (length data)))%Q,
    (snd r / inject_Z (Z.of_nat (length data)))%Q.
  split; [exact E|]. split; [exact L|].
  rewrite train_step_eq, Hr.
  destruct data as [|b data]; [contradiction|]. cbn [length].
  split; [reflexivity|].
  split; apply mean_of_totals; trivial; now rewrite length_map.
Qed.

Lemma val_step_means (data : list (Batch Tensor)) (w : World) :
  data <> [] -> Forall (fun b => well_shaped b = true) data ->
  exists vals w1 l f,
    map_each data (val_body (0, 0)%Q)
             (set_grad false (world_of (model_eval w))) = Ok vals w1
    /\ length vals = length data
    /\ val_step data w = Ok (l, f) (set_grad (grad_enabled w) w1)
    /\ (l == Qmean (map fst vals))%Q /\ (f == Qmean (map snd vals))%Q.
Proof.
  intros Hne Hws.
  destruct (val_loop_total Hws (set_grad false (world_of (model_eval w))))
    as (vals & w1 & E & _).
  pose proof (map_each_length _ _ _ E) as L.
  pose proof (for_each_sums val_body_accumulating data (0, 0)%Q
                            (set_grad false (world_of (model_eval w)))) as S.
  rewrite E in S. destruct S as (r & Hr & H1 & H2).
  exists vals, w1, (fst r / inject_Z (Z.of_nat (length data)))%Q,
    (snd r / inject_Z (Z.of_nat (length data)))%Q.
  split; [exact E|]. split; [exact L|].
  rewrite val_step_eq, Hr.
  destruct data as [|b data]; [contradiction|]. cbn [length].
  split; [reflexivity|].
  split; apply mean_of_totals; trivial; now rewrite length_map.
Qed.


End StepResults.

(** ** What [val_step] leaves alone *)

Section ValidationFrame.

Context {T : Torch}.

Lemma val_step_frame (data : list (Batch Tensor)) (w : World) :
  let o := val_step data w in
  training (world_of o) = false /\ net (world_of o) = net w
  /\ optim (world_of o) = optim w
  /\ grad_enabled (world_of o) = grad_enabled w
  /\ exists k, (k <= length data)%nat
       /\ trace (world_of o)
          = trace w ++ ModelEval :: repeat (Forward false false) k
       /\ match o with Ok _ _ => k = length data | Raise _ _ => True end.
Proof.
  cbn zeta. rewrite val_step_eq.
  pose proof (val_loop_frame data (0, 0)%Q
                (set_grad false (world_of (model_eval w)))) as F.
  cbn zeta in F. destruct F as (Ft & Fn & Fo & Fg & k & Hk & Ftr & Fok).
  cbn [model_eval set_training world_of set_grad training net optim
       grad_enabled trace] in *.
  assert (W : forall w' : World,
             training w' = false -> net w' = net w -> optim w' = optim w ->
             trace w' = (trace w ++ [ModelEval]) ++ repeat (Forward false false) k ->
             training (set_grad (grad_enabled w) w') = false
             /\ net (set_grad (grad_enabled w) w') = net w
             /\ optim (set_grad (grad_enabled w) w') = optim w
             /\ grad_enabled (set_grad (grad_enabled w) w') = grad_enabled w
             /\ trace (set_grad (grad_enabled w) w')
                = trace w ++ ModelEval :: repeat (Forward false false) k).
  { intros w' H1 H2 H3 H4. cbn. repeat split; trivial.
    now rewrite H4, <- app_assoc. }
  destruct (for_each data (0, 0)%Q val_body _) as [r w'|e w'];
    cbn [world_of] in *.
  - destruct (W w' Ft Fn Fo Ftr) as (A1 & A2 & A3 & A4 & A5).
    destruct (length data) eqn:L; cbn [world_of];
      (repeat split; trivial; exists k; repeat split; trivial; lia).
  - destruct (W w' Ft Fn Fo Ftr) as (A1 & A2 & A3 & A4 & A5).
    repeat split; trivial. exists k. repeat split; trivial.
Qed.

(** C9. [val_step] does per batch what [train_step] does, from the same
    world with the same result (subsampling, model call, loss, F1, running
    totals), without [zero_grad], [backward], [step] and the per-batch
    [wandb.log]; as a whole it puts the model in evaluation mode, calls it
    with gradients disabled, leaves the parameters and the optimizer as they
    were, and its trace is [model.eval()] followed by model calls only. *)
Theorem val_step_like_train_without_update :
  (forall (acc : Q * Q) (b : Batch Tensor) (w : World),
      match val_body acc b w with
      | Ok r wv =>
          exists wt loss,
            train_body acc b w = Ok r wt
            /\ (fst r = fst acc + loss)%Q
            /\ rng wt = rng wv
            /\ net wv = net w /\ optim wv = optim w
            /\ trace wv = trace w ++ [Forward (training w) (grad_enabled w)]
            /\ trace wt
               = trace w ++ [Forward (training w) (grad_enabled w); ZeroGrad;
                             Backward; OptimizerStep;
                             WandbLog [("batch train loss"%string, loss)]]
      | Raise e wv => train_body acc b w = Raise e wv
      end)
  /\ (forall (data : list (Batch Tensor)) (w : World),
        let o := val_step data w in
        training (world_of o) = false /\ net (world_of o) = net w
        /\ optim (world_of o) = optim w
        /\ grad_enabled (world_of o) = grad_enabled w
        /\ exists k, (k <= length data)%nat
             /\ trace (world_of o)
                = trace w ++ ModelEval :: repeat (Forward false false) k
             /\ match o with Ok _ _ => k = length data | Raise _ _ => True end).
Proof.
  split; [|exact val_step_frame].
  intros acc b w. rewrite val_body_eq, train_body_eq.
  pose proof (subsample_frame b w) as F.
  destruct (subsample b w) as [s w1|e w1]; [|reflexivity].
  cbn [world_of] in F. destruct F as (Ft & Fn & Fo & Fg & Ftr).
  exists (trained b s w1), (loss_at b s w1).
  split; [reflexivity|]. split; [reflexivity|].
  unfold trained. destruct (opt_step _ _) as [o n].
  cbn [forwarded rng net optim trace].
  rewrite Ft, Fg, Ftr. repeat split; assumption.
Qed.

(** [train_step] and [val_step] return for non-empty data of well-shaped
    batches and leave no event of [train] in the trace; the validation F1 is
    not negative. *)
Lemma train_step_run (data : list (Batch Tensor)) (w : World) :
  data <> [] -> Forall (fun b => well_shaped b = true) data ->
  exists l f w', train_step data w = Ok (l, f) w' /\ quiet w w'.
Proof.
  intros Hne Hws.
  destruct (train_step_means w Hne Hws) as (vals & w1 & l & f & _ & _ & E & _).
  exists l, f, w1. split; [exact E|].
  pose proof (train_loop_quiet data (0, 0)%Q (world_of (model_train w))) as Q.
  rewrite train_step_eq in E.
  destruct (for_each data (0, 0)%Q train_body _) as [r w'|e w']; [|discriminate].
  destruct (length data); [discriminate|]. inversion E; subst.
  eapply quiet_trans; [|exact Q].
  eapply quiet_step; [reflexivity | reflexivity].
Qed.

Lemma Qmean_nonneg (l : list Q) :
  Forall (fun q => (0 <= q)%Q) l -> (0 <= Qmean l)%Q.
Proof.
  intros H. unfold Qmean. apply Qdiv_nonneg; [now apply Qsum_nonneg|].
  unfold Qle, inject_Z. cbn [Qnum Qden]. lia.
Qed.

Lemma val_step_run (data : list (Batch Tensor)) (w : World) :
  data <> [] -> Forall (fun b => well_shaped b = true) data ->
  exists l f w', val_step data w = Ok (l, f) w' /\ quiet w w' /\ (0 <= f)%Q.
Proof.
  intros Hne Hws.
  destruct (val_loop_total Hws (set_grad false (world_of (model_eval w))))
    as (vals0 & w0 & E0 & Hpos).
  destruct (val_step_means w Hne Hws)
    as (vals & w1 & l & f & Em & _ & E & _ & Hf).
  rewrite E0 in Em. inversion Em; subst vals0 w0.
  exists l, f, (set_grad (grad_enabled w) w1). split; [exact E|]. split.
  - pose proof (val_step_frame data w) as F. cbn zeta in F. rewrite E in F.
    cbn [world_of] in F. destruct F as (_ & _ & _ & _ & k & _ & Htr & _).
    eapply quiet_step; [exact Htr|].
    unfold epoch_view. cbn [filter is_epoch_event].
    clear. induction k as [|k IH]; [reflexivity | exact IH].
  - rewrite Hf. apply Qmean_nonneg.
    apply Forall_forall. intros q Hq. apply in_map_iff in Hq as (v & <- & Hv).
    rewrite Forall_forall in Hpos. now apply Hpos.
Qed.

End ValidationFrame.

(** ** [test_step] and [test_for_eval] *)

Section TestFacts.

Context {T : Torch}.

(** The lists of the test loop are the initial lists followed by the labels of
    the batches, batch after batch. *)
Lemma test_loop_concat (data : list (Batch Tensor)) :
  forall (acc : list Z * list Z) (w : World),
    match map_each data (test_body ([], [])) w with
    | Ok vals w' =>
        for_each data acc test_body w
        = Ok (fst acc ++ concat (map fst vals), snd acc ++ concat (map snd vals)) w'
        /\ Forall (fun v => length (fst v) = length (snd v)) vals
    | Raise e w' => for_each data acc test_body w = Raise e w'
    end.
Proof.
  induction data as [|b data IH]; intros [g p] w.
  - simpl. unfold ret. rewrite !app_nil_r. now split.
  - cbn [map_each for_each]. unfold bind. rewrite !test_body_eq.
    destruct (subsample b w) as [s w1|e w1]; [|reflexivity].
    cbn [fst snd app].
    specialize (IH (g ++ argmax_dim1 (label b), p ++ argmax_dim1 (logits_at b s w1))
                   (forwarded w1)).
    destruct (map_each data (test_body ([], [])) (forwarded w1)) as [vals w2|e w2].
    + destruct IH as (IH & Hl). unfold ret. split.
      * rewrite IH. cbn [fst snd map concat]. now rewrite <- !app_assoc.
      * constructor; [|exact Hl]. cbn [fst snd]. unfold logits_at.
        now rewrite forward_rows.
    + exact IH.
Qed.

Lemma concat_lengths (vals : list (list Z * list Z)) :
  Forall (fun v => length (fst v) = length (snd v)) vals ->
  length (concat (map fst vals)) = length (concat (map snd vals)).
Proof.
  induction 1 as [|v vals Hv Hl IH]; [reflexivity|].
  cbn [map concat]. rewrite !length_app. congruence.
Qed.

Lemma test_loop_total (data : list (Batch Tensor)) :
  Forall (fun b => well_shaped b = true) data ->
  forall w : World,
    exists vals w', map_each data (test_body ([], [])) w = Ok vals w'.
Proof.
  induction 1 as [|b data Hb Hd IH]; intros w.
  - now exists [], w.
  - cbn [map_each]. unfold bind. rewrite test_body_eq.
    destruct (subsample_ok b w Hb) as (s & ->).
    destruct (IH (forwarded (after_draw w))) as (vals & w' & ->).
    now eexists _, w'.
Qed.


(** C8. [test_step] and [test_for_eval] run the same loop and score the same
    two lists: whenever one returns so does the other, from the same final
    world, [test_step] with the score alone and [test_for_eval] with the
    score and the two lists; and when one raises the other raises the same. *)
Theorem test_variants_agree (data : list (Batch Tensor)) (w : World) :
  match test_for_eval data w with
  | Ok (f, gold, pred) w' =>
      test_step data w = Ok f w' /\ f = Metrics.weighted_f1 gold pred
      /\ exists w1, inference_mode (for_each data ([], []) test_body) w
                    = Ok (gold, pred) w1
  | Raise e w' => test_step data w = Raise e w'
  end.
Proof.
  unfold test_for_eval, test_step, bind.
  destruct (inference_mode (for_each data ([], []) test_body) w)
    as [[gold pred] w1|e w1]; [|reflexivity].
  unfold f1_score.
  destruct (Nat.eqb (length gold) (length pred)); unfold ret, raise.
  - split; [reflexivity|]. split; [reflexivity|]. now exists w1.
  - reflexivity.
Qed.

End TestFacts.

(** ** [train] *)

Section TrainFacts.

Context {T : Torch}.

Lemma quiet_adds (w w' : World) : quiet w w' -> adds w w' [].
Proof. exact (fun H => H). Qed.

Lemma adds_trans (w1 w2 w3 : World) (a b : list Event) :
  adds w1 w2 a -> adds w2 w3 b -> adds w1 w3 (a ++ b).
Proof.
  intros (x & Hx & Vx) (y & Hy & Vy). exists (x ++ y). split.
  - now rewrite Hy, Hx, app_assoc.
  - unfold epoch_view in *. now rewrite filter_app, Vx, Vy.
Qed.

Lemma adds_emit (ev : Event) (w : World) :
  is_epoch_event ev = true -> adds w (world_of (emit ev w)) [ev].
Proof.
  intros H. exists [ev]. split; [reflexivity|].
  unfold epoch_view. cbn [filter]. now rewrite H.
Qed.

Variables train_dataloader val_dataloader : list (Batch Tensor).
Variable patience : Z.

Hypothesis train_nonempty : train_dataloader <> [].
Hypothesis val_nonempty : val_dataloader <> [].
Hypothesis train_shaped : Forall (fun b => well_shaped b = true) train_dataloader.
Hypothesis val_shaped : Forall (fun b => well_shaped b = true) val_dataloader.

(** One epoch: the two steps return, the stopping state is updated, and the
    metrics are appended and logged unless the counter has reached
    [patience]. *)
Lemma train_epoch_run (st : Locals) (epoch : Z) (w : World) :
  exists r flow w',
    train_epoch train_dataloader val_dataloader patience st epoch w = Ok flow w'
    /\ ep_index r = epoch
    /\ ep_count r
       = next_count (prev_val_score st) (no_improv_epochs st) (ep_val_f1 r)
    /\ (0 <= ep_val_f1 r)%Q
    /\ adds w w' (epoch_block patience r)
    /\ flow = (if patience <=? ep_count r then Return
               else Continue (locals_after st [r])).
Proof.
  destruct (train_step_run w train_nonempty train_shaped)
    as (tl & tf & w1 & E1 & Q1).
  pose (w2 := world_of (emit (TrainStepReturned tl tf) w1)).
  destruct (val_step_run w2 val_nonempty val_shaped)
    as (vl & vf & w3 & E3 & Q3 & Hvf).
  pose (cnt := next_count (prev_val_score st) (no_improv_epochs st) vf).
  pose (r := mkEpoch epoch tl tf vl vf cnt).
  pose (w4 := world_of (emit (ValStepReturned vl vf) w3)).
  pose (w5 := world_of (emit (StopStateUpdated vf cnt) w4)).
  assert (A5 : adds w w5 (head_block r)).
  { change (head_block r)
      with (([] ++ [TrainStepReturned tl tf]) ++ ([] ++ [ValStepReturned vl vf])
            ++ [StopStateUpdated vf cnt]).
    eapply adds_trans; [eapply adds_trans; [apply quiet_adds, Q1|]|].
    - now apply adds_emit.
    - eapply adds_trans; [eapply adds_trans; [apply quiet_adds, Q3|]|];
        now apply adds_emit. }
  exists r.
  unfold train_epoch, bind. rewrite E1. cbn [emit]. fold w2.
  change (mkWorld (rng w1) (training w1) (net w1) (optim w1) (grad_enabled w1)
                  (trace w1 ++ [TrainStepReturned tl tf])) with w2.
  rewrite E3.
  change (mkWorld (rng w3) (training w3) (net w3) (optim w3) (grad_enabled w3)
                  (trace w3 ++ [ValStepReturned vl vf])) with w4.
  change (if Qlt_bool vf (prev_val_score st)
          then no_improv_epochs st + 1 else no_improv_epochs st) with cnt.
  change (mkWorld (rng w4) (training w4) (net w4) (optim w4) (grad_enabled w4)
                  (trace w4 ++ [StopStateUpdated vf cnt])) with w5.
  unfold epoch_block. cbn [ep_count r].
  destruct (patience <=? cnt) eqn:P.
  - unfold ret. eexists _, w5. repeat split; trivial.
  - unfold wandb_log, emit, ret. eexists _, _.
    split; [reflexivity|]. repeat split; trivial.
    eapply adds_trans; [exact A5|].
    eexists. split; [cbn [trace]; rewrite <- app_assoc; reflexivity|].
    reflexivity.
Qed.

Lemma last_cons_default {A} (a d : A) (l : list A) : last (a :: l) d = last l a.
Proof.
  revert a d. induction l as [|b l IH]; intros a d; [reflexivity|].
  change (last (a :: b :: l) d) with (last (b :: l) d).
  now rewrite (IH b d), (IH b a).
Qed.

Lemma locals_after_cons (st : Locals) (r : Epoch) (rows : list Epoch) :
  locals_after (locals_after st [r]) rows = locals_after st (r :: rows).
Proof.
  unfold locals_after.
  cbn [train_losses val_losses train_fscores val_fscores prev_val_score
       no_improv_epochs map].
  rewrite <- !app_assoc, !last_cons_default. reflexivity.
Qed.

(** The loop over the epochs returns, and its epochs have the shape of a
    run. *)
Lemma train_epochs_run (es : list Z) :
  forall (st : Locals) (w : World),
    exists rows stopped flow w',
      train_epochs train_dataloader val_dataloader patience es st w = Ok flow w'
      /\ run_shape patience es (prev_val_score st) (no_improv_epochs st)
                   rows stopped
      /\ adds w w' (concat (map (epoch_block patience) rows))
      /\ flow = (if stopped then Return else Continue (locals_after st rows)).
Proof.
  induction es as [|e es IH]; intros st w.
  - exists [], false, (Continue st), w. split; [reflexivity|].
    split; [constructor|]. split; [apply quiet_adds, quiet_refl|].
    destruct st. unfold locals_after. cbn. now rewrite !app_nil_r.
  - destruct (train_epoch_run st e w)
      as (r & flow & w1 & E & Hi & Hc & Hv & A & F).
    cbn [train_epochs]. unfold bind. rewrite E, F.
    destruct (patience <=? ep_count r) eqn:P.
    + exists [r], true, Return, w1. split; [reflexivity|].
      split; [apply run_stop; trivial; lia|].
      split; [|reflexivity]. cbn [map concat]. now rewrite app_nil_r.
    + destruct (IH (locals_after st [r]) w1)
        as (rows & stopped & flow' & w2 & E' & S & A' & F').
      exists (r :: rows), stopped, flow', w2. split; [exact E'|].
      split; [apply run_more; trivial; lia|].
      split; [cbn [map concat]; eapply adds_trans; eassumption|].
      now rewrite <- locals_after_cons.
Qed.

(** [train] returns; its trace is [model.to(device)] and then the epochs, and
    its loop ends by the early [return] exactly when the run is a stopped
    one. *)
Lemma train_run (epochs : Z) (w : World) :
  exists rows (stopped : bool) w' added,
    train train_dataloader val_dataloader patience epochs w = Ok tt w'
    /\ train_epochs train_dataloader val_dataloader patience (py_range epochs)
                    init_locals (world_of (model_to w))
       = Ok (if stopped then Return else Continue (locals_after init_locals rows))
            w'
    /\ run_shape patience (py_range epochs) 0%Q 0 rows stopped
    /\ trace w' = trace w ++ ModelTo :: added
    /\ epoch_view added = concat (map (epoch_block patience) rows).
Proof.
  pose (w0 := world_of (model_to w)).
  destruct (train_epochs_run (py_range epochs) init_locals w0)
    as (rows & stopped & flow & w' & E & S & (added & Htr & V) & F).
  exists rows, stopped, w', added.
  unfold train, bind. cbn [model_to emit]. fold w0.
  change (mkWorld (rng w) (training w) (net w) (optim w) (grad_enabled w)
                  (trace w ++ [ModelTo])) with w0.
  rewrite E. split; [reflexivity|]. split; [now rewrite <- F|].
  split; [exact S|]. split; [|exact V].
  rewrite Htr. cbn [w0 model_to emit world_of trace].
  now rewrite <- app_assoc.
Qed.

End TrainFacts.

(** ** The shape of a run *)

Lemma run_shape_counts (patience : Z) (es : list Z) (prev : Q) (count : Z)
    (rows : list Epoch) (stopped : bool) :
  run_shape patience es prev count rows stopped ->
  map ep_count rows = counts_from prev count (map ep_val_f1 rows).
Proof.
  induction 1 as [| e es prev count r Hi Hc Hv Hp
                  | e es prev count r rows stopped Hi Hc Hv Hp S IH]; cbn.
  - reflexivity.
  - now rewrite Hc.
  - rewrite <- Hc. now f_equal.
Qed.

Lemma run_shape_indices (patience : Z) (es : list Z) (prev : Q) (count : Z)
    (rows : list Epoch) (stopped : bool) :
  run_shape patience es prev count rows stopped ->
  map ep_index rows = firstn (length rows) es.
Proof.
  induction 1 as [| e es prev count r Hi Hc Hv Hp
                  | e es prev count r rows stopped Hi Hc Hv Hp S IH]; cbn.
  - reflexivity.
  - now rewrite Hi.
  - rewrite Hi. now f_equal.
Qed.

Lemma run_shape_nonneg (patience : Z) (es : list Z) (prev : Q) (count : Z)
    (rows : list Epoch) (stopped : bool) :
  run_shape patience es prev count rows stopped ->
  Forall (fun r => (0 <= ep_val_f1 r)%Q) rows.
Proof.
  induction 1; repeat constructor; trivial.
Qed.

(** A run that stops does so in its last epoch, the first whose counter has
    reached [patience]; a run that does not stop executes every epoch. *)
Lemma run_shape_halt (patience : Z) (es : list Z) (prev : Q) (count : Z)
    (rows : list Epoch) (stopped : bool) :
  run_shape patience es prev count rows stopped ->
  if stopped
  then exists rows' final,
      rows = rows' ++ [final]
      /\ Forall (fun r => ep_count r < patience) rows'
      /\ patience <= ep_count final
  else length rows = length es
       /\ Forall (fun r => ep_count r < patience) rows.
Proof.
  induction 1 as [| e es prev count r Hi Hc Hv Hp
                  | e es prev count r rows stopped Hi Hc Hv Hp S IH].
  - split; [reflexivity | constructor].
  - exists [], r. repeat split; trivial.
  - destruct stopped.
    + destruct IH as (rows' & final & -> & Hf & Hl).
      exists (r :: rows'), final. repeat split; trivial. now constructor.
    + destruct IH as (Hlen & Hf). split; [simpl; now f_equal | now constructor].
Qed.

Lemma next_count_spec (prev : Q) (count : Z) (vf : Q) :
  ((vf < prev)%Q -> next_count prev count vf = count + 1)
  /\ (~ (vf < prev)%Q -> next_count prev count vf = count).
Proof.
  unfold next_count, Qlt_bool.
  destruct (Qle_bool prev vf) eqn:E; cbn [negb]; split; intros H; trivial.
  - apply Qle_bool_iff in E. exfalso. now apply (Qlt_not_le vf prev).
  - exfalso. apply H. apply Qnot_le_lt. intros L.
    apply Qle_bool_iff in L. congruence.
Qed.

Lemma next_count_first (count : Z) (vf : Q) :
  (0 <= vf)%Q -> next_count 0 count vf = count.
Proof.
  intros H. apply next_count_spec. now apply Qle_not_lt.
Qed.

Lemma py_range_pos (n : Z) : 1 <= n -> exists es, py_range n = 0 :: es.
Proof.
  intros H. unfold py_range.
  destruct (Z.to_nat n) as [|m] eqn:E; [lia|]. cbn [seq map]. now eexists.
Qed.

Lemma py_range_nonpos (n : Z) : n <= 0 -> py_range n = [].
Proof.
  intros H. unfold py_range. now replace (Z.to_nat n) with 0%nat by lia.
Qed.

Lemma py_range_length (n : Z) : length (py_range n) = Z.to_nat n.
Proof. unfold py_range. now rewrite length_map, length_seq. Qed.

(** With a patience of at least one, the first epoch of a run never stops
    it. *)
Lemma run_first_epoch (patience e : Z) (es : list Z) (rows : list Epoch)
    (stopped : bool) :
  1 <= patience ->
  run_shape patience (e :: es) 0%Q 0 rows stopped ->
  exists r rest,
    rows = r :: rest /\ ep_index r = e /\ ep_count r = 0
    /\ epoch_block patience r = head_block r ++ tail_block r.
Proof.
  intros Hp S. inversion S as [| e' es' prev count r Hi Hc Hv Hs
                               | e' es' prev count r rest st Hi Hc Hv Hs S'];
    subst; rewrite next_count_first in Hc by assumption.
  - lia.
  - exists r, rest. repeat split; trivial.
    unfold epoch_block. destruct (patience <=? ep_count r) eqn:P; [lia|].
    reflexivity.
Qed.

(** The run of two epochs with the validation scores 0.5 and 0.3 and a
    patience of one. *)
Lemma run_half_then_worse (rows : list Epoch) (stopped : bool) :
  run_shape 1 [0; 1] 0%Q 0 rows stopped ->
  Forall2 Qeq (map ep_val_f1 rows) (firstn (length rows) [1 # 2; 3 # 10]%Q) ->
  stopped = true
  /\ exists r1 r2,
      rows = [r1; r2] /\ ep_index r1 = 0 /\ ep_index r2 = 1
      /\ ep_count r1 = 0 /\ ep_count r2 = 1
      /\ concat (map (epoch_block 1) rows)
         = head_block r1 ++ tail_block r1 ++ head_block r2.
Proof.
  intros S V.
  destruct (run_first_epoch (patience := 1) ltac:(lia) S)
    as (r1 & rest & -> & Hi1 & Hc1 & B1).
  inversion S as [| e' es' prev count r Hi Hc Hv Hs
                  | e' es' prev count r rest' st Hi Hc Hv Hs S']; subst.
  { lia. }
  cbn [map length firstn] in V. inversion V as [|x y xs ys V1 V']; subst.
  inversion S' as [| e' es' prev count r2 Hi2 Hc2 Hv2 Hs2
                   | e' es' prev count r2 rest' st Hi2 Hc2 Hv2 Hs2 S'']; subst.
  - assert (C2 : ep_count r2 = ep_count r1 + 1).
    { rewrite Hc2. apply next_count_spec.
      cbn [map length firstn] in V'. inversion V' as [|x y xs ys V2 _]; subst.
      rewrite V1, V2. reflexivity. }
    split; [reflexivity|]. exists r1, r2. repeat split; trivial; try lia.
    cbn [map concat]. rewrite B1. unfold epoch_block at 1.
    destruct (1 <=? ep_count r2) eqn:P; [|lia].
    now rewrite app_nil_r, <- app_assoc.
  - exfalso.
    assert (C2 : ep_count r2 = ep_count r1 + 1).
    { rewrite Hc2. apply next_count_spec.
      cbn [map length firstn] in V'. inversion V' as [|x y xs ys V2 _]; subst.
      rewrite V1, V2. reflexivity. }
    lia.
Qed.

(** ** The claims about [train] *)

Section TrainClaims.

Context {T : Torch}.

Variables train_dataloader val_dataloader : list (Batch Tensor).

(** C1. In a run of [train] the no-improvement counter of an epoch is the
    counter of the epoch before (0 at the start, with a previous score of 0)
    plus one when the validation F1 of the epoch is below that of the epoch
    before, and the same counter otherwise; the loop returns early in the
    first epoch whose counter has reached [patience], and in no other.  For
    two epochs with the validation scores 0.5 and 0.3 and a patience of 1,
    the run stops in the second epoch, and the metrics of the first epoch
    are the only ones that are appended or logged. *)
Theorem early_stop_counter (patience epochs : Z) (w : World)
    (Htn : train_dataloader <> []) (Hvn : val_dataloader <> [])
    (Hts : Forall (fun b => well_shaped b = true) train_dataloader)
    (Hvs : Forall (fun b => well_shaped b = true) val_dataloader) :
  exists rows (stopped : bool) w' added,
    train train_dataloader val_dataloader patience epochs w = Ok tt w'
    /\ train_epochs train_dataloader val_dataloader patience (py_range epochs)
                    init_locals (world_of (model_to w))
       = Ok (if stopped then Return else Continue (locals_after init_locals rows))
            w'
    /\ trace w' = trace w ++ ModelTo :: added
    /\ epoch_view added = concat (map (epoch_block patience) rows)
    /\ map ep_index rows = firstn (length rows) (py_range epochs)
    /\ map ep_count rows = counts_from 0%Q 0 (map ep_val_f1 rows)
    /\ (forall prev count vf,
          ((vf < prev)%Q -> next_count prev count vf = count + 1)
          /\ (~ (vf < prev)%Q -> next_count prev count vf = count))
    /\ (if stopped
        then exists rows' final,
            rows = rows' ++ [final]
            /\ Forall (fun r => ep_count r < patience) rows'
            /\ patience <= ep_count final
        else length rows = Z.to_nat epochs
             /\ Forall (fun r => ep_count r < patience) rows)
    /\ (patience = 1 -> epochs = 2 ->
        Forall2 Qeq (map ep_val_f1 rows)
                (firstn (length rows) [1 # 2; 3 # 10]%Q) ->
        stopped = true
        /\ exists r1 r2,
            rows = [r1; r2] /\ ep_index r1 = 0 /\ ep_index r2 = 1
            /\ ep_count r1 = 0 /\ ep_count r2 = 1
            /\ epoch_view added = head_block r1 ++ tail_block r1 ++ head_block r2).
Proof.
  destruct (train_run patience Htn Hvn Hts Hvs epochs w)
    as (rows & stopped & w' & added & E & F & S & Htr & V).
  exists rows, stopped, w', added.
  split; [exact E|]. split; [exact F|]. split; [exact Htr|]. split; [exact V|].
  split; [eapply run_shape_indices, S|].
  split; [eapply run_shape_counts, S|].
  split; [exact next_count_spec|].
  split.
  - pose proof (run_shape_halt S) as H. destruct stopped; [exact H|].
    now rewrite <- py_range_length.
  - intros -> -> Hv. change (py_range 2) with [0; 1] in S.
    destruct (run_half_then_worse S Hv) as (Hs & r1 & r2 & H).
    split; [exact Hs|]. exists r1, r2.
    destruct H as (H1 & H2 & H3 & H4 & H5 & H6).
    repeat split; trivial. now rewrite V.
Qed.

(** C6, as the code has it.  Every executed epoch runs the train step, then
    the validation step, then updates the stopping state.  If the counter is
    then below [patience] the four metrics are appended and logged, in this
    order, and the loop goes on (COMPLETED when the range of epochs is
    exhausted); if the counter has reached [patience] the loop returns at
    once (STOPPED), and the metrics of that epoch are neither appended nor
    logged. *)
Theorem epoch_order (patience epochs : Z) (w : World)
    (Htn : train_dataloader <> []) (Hvn : val_dataloader <> [])
    (Hts : Forall (fun b => well_shaped b = true) train_dataloader)
    (Hvs : Forall (fun b => well_shaped b = true) val_dataloader) :
  exists rows (stopped : bool) w' added,
    train train_dataloader val_dataloader patience epochs w = Ok tt w'
    /\ train_epochs train_dataloader val_dataloader patience (py_range epochs)
                    init_locals (world_of (model_to w))
       = Ok (if stopped then Return else Continue (locals_after init_locals rows))
            w'
    /\ trace w' = trace w ++ ModelTo :: added
    /\ epoch_view added = concat (map (epoch_block patience) rows)
    /\ (forall r,
          epoch_block patience r
          = [TrainStepReturned (ep_train_loss r) (ep_train_f1 r);
             ValStepReturned (ep_val_loss r) (ep_val_f1 r);
             StopStateUpdated (ep_val_f1 r) (ep_count r)]
            ++ (if patience <=? ep_count r then []
                else [MetricsAppended (ep_train_loss r) (ep_train_f1 r)
                                      (ep_val_loss r) (ep_val_f1 r);
                      WandbLog [("train loss"%string, ep_train_loss r);
                                ("val loss"%string, ep_val_loss r);
                                ("train F1"%string, ep_train_f1 r);
                                ("val F1"%string, ep_val_f1 r);
                                ("epoch"%string, inject_Z (ep_index r))]]))
    /\ map ep_index rows = firstn (length rows) (py_range epochs)
    /\ (if stopped
        then exists rows' final,
            rows = rows' ++ [final]
            /\ Forall (fun r => ep_count r < patience) rows'
            /\ patience <= ep_count final
        else length rows = Z.to_nat epochs
             /\ Forall (fun r => ep_count r < patience) rows).
Proof.
  destruct (train_run patience Htn Hvn Hts Hvs epochs w)
    as (rows & stopped & w' & added & E & F & S & Htr & V).
  exists rows, stopped, w', added.
  split; [exact E|]. split; [exact F|]. split; [exact Htr|]. split; [exact V|].
  split.
  { intros r. unfold epoch_block.
    destruct (patience <=? ep_count r); [now rewrite app_nil_r | reflexivity]. }
  split; [eapply run_shape_indices, S|].
  pose proof (run_shape_halt S) as H. destruct stopped; [exact H|].
  now rewrite <- py_range_length.
Qed.

(** C10. The previous validation score starts at 0 and the counter at 0; a
    validation F1 is never negative, so the comparison of the first epoch
    does not hold and the counter is still 0 after it; hence with a patience
    of at least one the first epoch of a run is a full one: its metrics are
    appended and logged before anything else can happen. *)
Theorem first_epoch_is_recorded (patience epochs : Z) (w : World)
    (Htn : train_dataloader <> []) (Hvn : val_dataloader <> [])
    (Hts : Forall (fun b => well_shaped b = true) train_dataloader)
    (Hvs : Forall (fun b => well_shaped b = true) val_dataloader)
    (Hp : 1 <= patience) :
  prev_val_score init_locals = 0%Q /\ no_improv_epochs init_locals = 0
  /\ (forall gold pred, 0 <= Metrics.weighted_f1 gold pred)%Q
  /\ (forall count vf, (0 <= vf)%Q -> next_count 0 count vf = count)
  /\ exists rows (stopped : bool) w' added,
      train train_dataloader val_dataloader patience epochs w = Ok tt w'
      /\ trace w' = trace w ++ ModelTo :: added
      /\ epoch_view added = concat (map (epoch_block patience) rows)
      /\ Forall (fun r => (0 <= ep_val_f1 r)%Q) rows
      /\ (epochs <= 0 -> rows = [] /\ stopped = false)
      /\ (1 <= epochs ->
          exists r rest,
            rows = r :: rest /\ ep_index r = 0 /\ ep_count r = 0
            /\ epoch_view added
               = head_block r ++ tail_block r
                 ++ concat (map (epoch_block patience) rest)).
Proof.
  split; [reflexivity|]. split; [reflexivity|].
  split; [exact weighted_f1_nonneg|]. split; [exact next_count_first|].
  destruct (train_run patience Htn Hvn Hts Hvs epochs w)
    as (rows & stopped & w' & added & E & F & S & Htr & V).
  exists rows, stopped, w', added.
  split; [exact E|]. split; [exact Htr|]. split; [exact V|].
  split; [eapply run_shape_nonneg, S|]. split.
  - intros He. rewrite py_range_nonpos in S by assumption.
    inversion S. now split.
  - intros He. destruct (py_range_pos He) as (es & Hes). rewrite Hes in S.
    destruct (run_first_epoch Hp S) as (r & rest & -> & Hi & Hc & B).
    exists r, rest. repeat split; trivial.
    rewrite V. cbn [map concat]. now rewrite B, <- app_assoc.
Qed.

End TrainClaims.

(** * Runs of the small instance *)

Lemma toy_train_shaped :
  Forall (fun b => well_shaped (T := Toy.torch) b = true) Toy.train_data.
Proof. repeat constructor. Defined.

Lemma toy_val_shaped :
  Forall (fun b => well_shaped (T := Toy.torch) b = true) Toy.val_data.
Proof. repeat constructor. Defined.

Lemma toy_train_nonempty : Toy.train_data <> [].
Proof. discriminate. Defined.

Lemma toy_val_nonempty : Toy.val_data <> [].
Proof. discriminate. Defined.

(** The run of two epochs with a patience of one: the validation F1 is 0.5
    and then 0.3, and the run stops in the second epoch. *)
Example toy_run_view :
  exists w',
    train (T := Toy.torch) Toy.train_data Toy.val_data 1 2 Toy.world0 = Ok tt w'
    /\ exists tl1 tf1 vl1 vf1 tl2 tf2 vl2 vf2,
        (vf1 == 1 # 2)%Q /\ (vf2 == 3 # 10)%Q
        /\ epoch_view (trace w')
           = [TrainStepReturned tl1 tf1; ValStepReturned vl1 vf1;
              StopStateUpdated vf1 0;
              MetricsAppended tl1 tf1 vl1 vf1;
              WandbLog [("train loss"%string, tl1); ("val loss"%string, vl1);
                        ("train F1"%string, tf1); ("val F1"%string, vf1);
                        ("epoch"%string, inject_Z 0)];
              TrainStepReturned tl2 tf2; ValStepReturned vl2 vf2;
              StopStateUpdated vf2 1].
Proof.
  destruct (train (T := Toy.torch) Toy.train_data Toy.val_data 1 2 Toy.world0) as [[] w'|e w'] eqn:E;
    vm_compute in E; [|discriminate].
  exists w'. split; [reflexivity|].
  inversion E as [E']. clear E. vm_compute.
  do 8 eexists. split; [|split; [|reflexivity]]; reflexivity.
Qed.

(** C6, as the specification words it, fails: in the run above the second
    epoch updates the stopping state and stops the run, and nothing is
    appended or logged after that update. *)
Lemma stopping_epoch_not_recorded :
  exists w',
    train (T := Toy.torch) Toy.train_data Toy.val_data 1 2 Toy.world0 = Ok tt w'
    /\ ~ recorded_in_every_epoch (epoch_view (trace w')).
Proof.
  destruct (train (T := Toy.torch) Toy.train_data Toy.val_data 1 2 Toy.world0)
    as [[] w'|e w'] eqn:E; vm_compute in E; [|discriminate].
  inversion E as [E']. clear E. subst w'.
  eexists. split; [reflexivity|]. intros H.
  match type of H with
  | recorded_in_every_epoch ?v =>
      assert (U : exists prev, nth_error v 7 = Some (StopStateUpdated prev 1))
        by (vm_compute; eexists; reflexivity);
      assert (N : nth_error v 8 = None) by (vm_compute; reflexivity)
  end.
  destruct U as (prev & U).
  destruct (H _ _ _ U) as (tl & tf & vl & vf & obs & H1 & _).
  rewrite N in H1. discriminate.
Qed.

(** The validation F1 is the mean over the two batches, 1/2, and not the
    mean over the four samples, 3/4. *)
Example val_mean_counts_batches :
  exists l f w',
    val_step (T := Toy.torch) Toy.mixed_data Toy.world0 = Ok (l, f) w'
    /\ (f == 1 # 2)%Q /\ ~ (f == 3 # 4)%Q.
Proof.
  destruct (val_step (T := Toy.torch) Toy.mixed_data Toy.world0)
    as [[l f] w'|e w'] eqn:E; vm_compute in E; [|discriminate].
  exists l, f, w'. split; [reflexivity|].
  inversion E; subst. split; [reflexivity | discriminate].
Qed.

(** The test F1 of the same batches is the F1 of the four samples, 11/15, and
    not the mean 1/2 of the F1 of the batches. *)
Example test_f1_counts_samples :
  exists f w',
    test_step (T := Toy.torch) Toy.mixed_data Toy.world0 = Ok f w'
    /\ (f == 11 # 15)%Q /\ ~ (f == 1 # 2)%Q.
Proof.
  destruct (test_step (T := Toy.torch) Toy.mixed_data Toy.world0)
    as [f w'|e w'] eqn:E; vm_compute in E; [|discriminate].
  exists f, w'. split; [reflexivity|].
  inversion E; subst. split; [reflexivity | discriminate].
Qed.

Lemma toy_mixed_shaped :
  Forall (fun b => well_shaped (T := Toy.torch) b = true) Toy.mixed_data.
Proof. repeat constructor. Defined.

(** ** The theorems at the small instance *)






Lemma early_stop_counter_witness :
  (Toy.train_data <> [] /\ Toy.val_data <> [])
  /\ exists w',
      train (T := Toy.torch) Toy.train_data Toy.val_data 1 2 Toy.world0 = Ok tt w'.
Proof.
  split; [split; discriminate|].
  destruct (@early_stop_counter Toy.torch Toy.train_data Toy.val_data 1 2
              Toy.world0 toy_train_nonempty toy_val_nonempty
              toy_train_shaped toy_val_shaped)
    as (rows & stopped & w' & added & E & _).
  exists w'. exact E.
Defined.

Lemma epoch_order_witness :
  (Toy.train_data <> [] /\ Toy.val_data <> [])
  /\ exists w',
      train (T := Toy.torch) Toy.train_data Toy.val_data 1 2 Toy.world0 = Ok tt w'.
Proof.
  split; [split; discriminate|].
  destruct (@epoch_order Toy.torch Toy.train_data Toy.val_data 1 2
              Toy.world0 toy_train_nonempty toy_val_nonempty
              toy_train_shaped toy_val_shaped)
    as (rows & stopped & w' & added & E & _).
  exists w'. exact E.
Defined.

Lemma first_epoch_is_recorded_witness :
  (Toy.train_data <> [] /\ Toy.val_data <> [] /\ 1 <= 1)
  /\ exists w',
      train (T := Toy.torch) Toy.train_data Toy.val_data 1 2 Toy.world0 = Ok tt w'.
Proof.
  split; [repeat split; try discriminate; lia|].
  destruct (@first_epoch_is_recorded Toy.torch Toy.train_data Toy.val_data 1 2
              Toy.world0 toy_train_nonempty toy_val_nonempty
              toy_train_shaped toy_val_shaped ltac:(lia))
    as (_ & _ & _ & _ & rows & stopped & w' & added & E & _).
  exists w'. exact E.
Defined.

(** * Further properties of [generate_subsampling] *)

Lemma slice_inner (b c : Z) (inner : list Z) :
  slice_1_m1 (b :: inner ++ [c]) = inner.
Proof.
  unfold slice_1_m1. cbn [tl]. apply removelast_last.
Qed.

Section SubsamplingEdges.

Context {T : Torch}.

(** X1. [generate_subsampling] never returns without chunks: a negative
    [nchunks] is a [ValueError] of [random.randint] before anything is drawn,
    and [nchunks = 0] draws once and then fails on the audio line, with an
    [IndexError] when the audio shape has no entry 1 and with a
    [ZeroDivisionError] otherwise. *)
Theorem generate_subsampling_needs_chunks (spp : Z) (im_shape au_shape : list Z)
    (w : World) :
  (forall nchunks, nchunks < 0 ->
      generate_subsampling nchunks spp im_shape au_shape w = Raise ValueError w)
  /\ generate_subsampling 0 spp im_shape au_shape w
     = Raise (match nth_error au_shape 1 with
              | Some _ => ZeroDivisionError
              | None => IndexError
              end) (after_draw w).
Proof.
  split.
  - intros n Hn. unfold generate_subsampling, bind, randint.
    destruct (n <? 0) eqn:E; [reflexivity | lia].
  - unfold generate_subsampling, bind, randint, np_floordiv, index, py_floordiv.
    cbn [Z.ltb Z.compare int64_range negb Z.eqb]. unfold ret, raise.
    change (negb (int64_range 0)) with false. cbv iota.
    destruct (nth_error au_shape 1) as [d|]; [|reflexivity].
    destruct (spp =? 0); reflexivity.
Qed.

(** X2. With a number of chunks that NumPy accepts, an audio shape without an
    entry 1 is an [IndexError] and [samples_per_patch = 0] a
    [ZeroDivisionError]; either way one draw has been consumed and nothing
    else has changed. *)
Theorem generate_subsampling_audio_errors (nchunks spp : Z)
    (im_shape au_shape : list Z) (w : World)
    (Hn : 0 <= nchunks < 2 ^ 63) :
  (nth_error au_shape 1 = None ->
      generate_subsampling nchunks spp im_shape au_shape w
      = Raise IndexError (after_draw w))
  /\ (forall d, nth_error au_shape 1 = Some d -> spp = 0 ->
        generate_subsampling nchunks spp im_shape au_shape w
        = Raise ZeroDivisionError (after_draw w)).
Proof.
  assert (R : int64_range nchunks = true).
  { unfold int64_range. apply andb_true_iff. split; lia. }
  split.
  - intros Hau. unfold generate_subsampling, bind.
    rewrite randint_ok by lia. unfold np_floordiv. rewrite R. cbn [negb].
    unfold index. rewrite Hau.
    destruct (nchunks =? 0); reflexivity.
  - intros d Hau ->. unfold generate_subsampling, bind.
    rewrite randint_ok by lia. unfold np_floordiv. rewrite R. cbn [negb].
    unfold index. rewrite Hau.
    destruct (nchunks =? 0); reflexivity.
Qed.



(** X5. The subsampling depends on the image shape through its inner
    dimensions and on the audio shape through its entry 1 only: the batch
    size and the number of channels do not matter. *)
Theorem subsample_ignores_batch_and_channels (nchunks spp b b' c c' : Z)
    (inner au_shape au_shape' : list Z) (w : World)
    (Hau : nth_error au_shape 1 = nth_error au_shape' 1) :
  generate_subsampling nchunks spp (b :: inner ++ [c]) au_shape w
  = generate_subsampling nchunks spp (b' :: inner ++ [c']) au_shape' w.
Proof.
  unfold generate_subsampling, index. now rewrite !slice_inner, Hau.
Qed.

End SubsamplingEdges.

(** * Further properties of the steps *)

Section StepEdges.

Context {T : Torch}.

Lemma for_each_app {A B} (body : B -> A -> M B) (l1 l2 : list A) :
  forall (acc : B) (w : World),
    for_each (l1 ++ l2) acc body w
    = match for_each l1 acc body w with
      | Ok acc' w' => for_each l2 acc' body w'
      | Raise e w' => Raise e w'
      end.
Proof.
  induction l1 as [|x l1 IH]; intros acc w; [reflexivity|].
  cbn [app for_each]. unfold bind.
  destruct (body acc x w) as [acc' w'|e w']; [apply IH | reflexivity].
Qed.

Lemma subsample_flat_audio (b : Batch Tensor) (w : World) :
  (length (shape (audio b)) < 2)%nat ->
  subsample b w = Raise IndexError (after_draw w).
Proof.
  intros H.
  assert (N : nth_error (py_shape (audio b)) 1 = None).
  { apply nth_error_None. unfold py_shape. rewrite length_map. lia. }
  unfold subsample, generate_subsampling, bind. rewrite randint_ok by lia.
  unfold np_floordiv, index. rewrite N. reflexivity.
Qed.

(** The training loop, batch by batch: one block of events and one draw per
    batch, in the mode the loop was entered in. *)
Lemma train_loop_trace (data : list (Batch Tensor)) :
  Forall (fun b => well_shaped b = true) data ->
  forall (acc : Q * Q) (w : World),
    training w = true ->
    exists losses r w',
      for_each data acc train_body w = Ok r w'
      /\ length losses = length data
      /\ trace w' = trace w ++ concat (map (batch_block (grad_enabled w)) losses)
      /\ (fst r == fst acc + Metrics.Qsum losses)%Q
      /\ training w' = true /\ grad_enabled w' = grad_enabled w
      /\ entropy (rng w') = entropy (rng w)
      /\ cursor (rng w') = (cursor (rng w) + length data)%nat.
Proof.
  induction 1 as [|b data Hb Hd IH]; intros acc w Htr.
  - exists [], acc, w. split; [reflexivity|]. split; [reflexivity|].
    split; [cbn; now rewrite app_nil_r|].
    split; [unfold Metrics.Qsum; cbn; ring|].
    repeat split; trivial; cbn; lia.
  - cbn [for_each]. unfold bind. rewrite train_body_eq.
    destruct (subsample_ok b w Hb) as (s & ->).
    pose (w1 := trained b s (after_draw w)).
    assert (W1 : training w1 = true /\ grad_enabled w1 = grad_enabled w
                 /\ rng w1 = advance (rng w)
                 /\ trace w1
                    = trace w ++ batch_block (grad_enabled w)
                                             (loss_at b s (after_draw w))).
    { unfold w1, trained. destruct (opt_step _ _) as [o n].
      cbn [training grad_enabled rng trace after_draw]. rewrite Htr.
      repeat split. }
    destruct W1 as (W1t & W1g & W1r & W1tr). fold w1.
    destruct (IH ((fst acc + loss_at b s (after_draw w))%Q,
                  (snd acc + f1_at b s (after_draw w))%Q) w1 W1t)
      as (losses & r & w' & E & L & Tr & S & Ht & Hg & He & Hc).
    exists (loss_at b s (after_draw w) :: losses), r, w'.
    split; [exact E|]. split; [cbn; now f_equal|].
    split; [rewrite Tr, W1tr, W1g; cbn [map concat]; now rewrite <- app_assoc|].
    split.
    { rewrite S. unfold Metrics.Qsum. cbn [fst fold_right]. ring. }
    split; [exact Ht|]. split; [congruence|].
    rewrite He, Hc, W1r. cbn [advance entropy cursor length].
    split; [reflexivity | lia].
Qed.

(** X6. For a non-empty loader of well-shaped batches [train_step] calls, per
    batch and in this order, the model in training mode, [zero_grad],
    [backward], the optimizer step and [wandb.log] with the loss of the
    batch, and nothing else after [model.train()]; the loss it returns is the
    mean of the losses it logged. *)
Theorem train_step_logs_every_batch (data : list (Batch Tensor)) (w : World)
    (Hne : data <> []) (Hws : Forall (fun b => well_shaped b = true) data) :
  exists losses l f w',
    train_step data w = Ok (l, f) w'
    /\ length losses = length data
    /\ trace w'
       = trace w ++ ModelTrain :: concat (map (batch_block (grad_enabled w)) losses)
    /\ (l == Qmean losses)%Q
    /\ training w' = true /\ grad_enabled w' = grad_enabled w.
Proof.
  destruct (train_loop_trace Hws (0, 0)%Q (world_of (model_train w)) eq_refl)
    as (losses & r & w' & E & L & Tr & S & Ht & Hg & _).
  exists losses, (fst r / inject_Z (Z.of_nat (length data)))%Q,
    (snd r / inject_Z (Z.of_nat (length data)))%Q, w'.
  rewrite train_step_eq, E.
  destruct data as [|b data]; [contradiction|]. cbn [length].
  split; [reflexivity|]. split; [exact L|].
  split; [rewrite Tr; cbn; now rewrite <- app_assoc|].
  split; [now apply mean_of_totals|]. split; [exact Ht | exact Hg].
Qed.

(** The loops draw once per batch. *)
Lemma loop_draws {B} (body : B -> Batch Tensor -> M B)
    (Hbody : forall acc b w, well_shaped b = true ->
               exists r w', body acc b w = Ok r w'
                            /\ rng w' = advance (rng w))
    (data : list (Batch Tensor)) :
  Forall (fun b => well_shaped b = true) data ->
  forall (acc : B) (w : World),
    exists r w',
      for_each data acc body w = Ok r w'
      /\ entropy (rng w') = entropy (rng w)
      /\ cursor (rng w') = (cursor (rng w) + length data)%nat.
Proof.
  induction 1 as [|b data Hb Hd IH]; intros acc w.
  - exists acc, w. split; [reflexivity|]. split; [reflexivity | cbn; lia].
  - cbn [for_each]. unfold bind.
    destruct (Hbody acc b w Hb) as (r1 & w1 & -> & R1).
    destruct (IH r1 w1) as (r & w' & E & He & Hc).
    exists r, w'. split; [exact E|]. rewrite He, Hc, R1.
    cbn [advance entropy cursor length]. split; [reflexivity | lia].
Qed.

Lemma val_body_draws (acc : Q * Q) (b : Batch Tensor) (w : World) :
  well_shaped b = true ->
  exists r w', val_body acc b w = Ok r w' /\ rng w' = advance (rng w).
Proof.
  intros Hb. rewrite val_body_eq. destruct (subsample_ok b w Hb) as (s & ->).
  now eexists _, _.
Qed.




End StepEdges.

Section StepFailures.

Context {T : Torch}.

(** The test loop only calls the model. *)
Lemma test_loop_frame (data : list (Batch Tensor)) :
  forall (acc : list Z * list Z) (w : World),
    let o := for_each data acc test_body w in
    training (world_of o) = training w /\ net (world_of o) = net w
    /\ optim (world_of o) = optim w
    /\ grad_enabled (world_of o) = grad_enabled w
    /\ exists k, (k <= length data)%nat
         /\ trace (world_of o)
            = trace w ++ repeat (Forward (training w) (grad_enabled w)) k
         /\ match o with Ok _ _ => k = length data | Raise _ _ => True end.
Proof.
  induction data as [|b data IH]; intros acc w; cbn zeta.
  - simpl. repeat split. exists 0%nat. simpl. now rewrite app_nil_r.
  - cbn [for_each]. unfold bind. rewrite test_body_eq.
    pose proof (subsample_frame b w) as F.
    destruct (subsample b w) as [s w1|e w1]; cbn [world_of] in F;
      destruct F as (Ft & Fn & Fo & Fg & Ftr).
    + specialize (IH (fst acc ++ argmax_dim1 (label b),
                      snd acc ++ argmax_dim1 (logits_at b s w1)) (forwarded w1)).
      cbn zeta in IH. destruct IH as (It & In' & Io & Ig & k & Hk & Itr & Iok).
      cbn [forwarded training net optim grad_enabled trace] in *.
      repeat split; try congruence.
      exists (S k). split; [simpl; lia|]. split.
      * rewrite Itr, Ftr, Ft, Fg. simpl. now rewrite <- app_assoc.
      * destruct (for_each data _ test_body (forwarded w1)); [simpl; lia | exact I].
    + cbn [world_of]. repeat split; trivial.
      exists 0%nat. simpl. split; [lia|]. now rewrite app_nil_r.
Qed.

Lemma test_inference_frame (data : list (Batch Tensor)) (w : World) :
  let o := inference_mode (for_each data ([], []) test_body) w in
  training (world_of o) = training w /\ net (world_of o) = net w
  /\ optim (world_of o) = optim w
  /\ grad_enabled (world_of o) = grad_enabled w
  /\ exists k, (k <= length data)%nat
       /\ trace (world_of o) = trace w ++ repeat (Forward (training w) false) k
       /\ match o with Ok _ _ => k = length data | Raise _ _ => True end.
Proof.
  cbn zeta. unfold inference_mode.
  pose proof (test_loop_frame data ([], []) (set_grad false w)) as F.
  cbn zeta in F. destruct F as (Ft & Fn & Fo & Fg & k & Hk & Ftr & Fok).
  cbn [set_grad training net optim grad_enabled trace] in *.
  destruct (for_each data ([], []) test_body (set_grad false w)) as [r w'|e w'];
    cbn [world_of set_grad training net optim grad_enabled trace] in *;
    (repeat split; trivial; exists k; repeat split; trivial).
Qed.

(** X8. [test_step] and [test_for_eval] do not switch the model to evaluation
    mode: every call of the model runs in the mode the model was in on entry
    (with gradients disabled), and the functions leave the mode, the
    parameters and the optimizer as they were, restore the gradient mode and
    put nothing but model calls in the trace. *)
Theorem test_steps_keep_mode (data : list (Batch Tensor)) (w : World) :
  (let o := test_step data w in
   training (world_of o) = training w /\ net (world_of o) = net w
   /\ optim (world_of o) = optim w
   /\ grad_enabled (world_of o) = grad_enabled w
   /\ exists k, (k <= length data)%nat
        /\ trace (world_of o) = trace w ++ repeat (Forward (training w) false) k
        /\ match o with Ok _ _ => k = length data | Raise _ _ => True end)
  /\ (let o := test_for_eval data w in
      training (world_of o) = training w /\ net (world_of o) = net w
      /\ optim (world_of o) = optim w
      /\ grad_enabled (world_of o) = grad_enabled w
      /\ exists k, (k <= length data)%nat
           /\ trace (world_of o) = trace w ++ repeat (Forward (training w) false) k
           /\ match o with Ok _ _ => k = length data | Raise _ _ => True end).
Proof.
  pose proof (test_inference_frame data w) as F. cbn zeta in *.
  destruct F as (Ft & Fn & Fo & Fg & k & Hk & Ftr & Fok).
  unfold test_step, test_for_eval, bind.
  destruct (inference_mode (for_each data ([], []) test_body) w)
    as [[g p] w1|e w1]; cbn [world_of] in *.
  - unfold f1_score. destruct (Nat.eqb (length g) (length p));
      unfold ret, raise; cbn [world_of];
      (split; repeat split; trivial; exists k; repeat split; trivial).
  - split; repeat split; trivial; exists k; repeat split; trivial.
Qed.

(** X9. An empty loader is a [ZeroDivisionError]: [train_step] and [val_step]
    raise it after setting the mode of the model, and [train] with an empty
    training loader raises it in its first epoch, before any event of an
    epoch. *)
Theorem empty_loader_raises (w : World) :
  train_step [] w = Raise ZeroDivisionError (world_of (model_train w))
  /\ val_step [] w = Raise ZeroDivisionError (world_of (model_eval w))
  /\ (forall (val_dataloader : list (Batch Tensor)) (patience epochs : Z),
        1 <= epochs ->
        train [] val_dataloader patience epochs w
        = Raise ZeroDivisionError (world_of (model_train (world_of (model_to w))))).
Proof.
  split; [reflexivity|]. split; [reflexivity|].
  intros vdl patience epochs He.
  destruct (py_range_pos He) as (es & Hes).
  unfold train, bind. rewrite Hes. reflexivity.
Qed.

(** X10. An exception in the middle of a step is not caught and nothing is
    undone: when a batch fails (here: an audio tensor without a second
    dimension), [train_step] raises after having updated the model on every
    batch before it, and [val_step] raises with the gradient mode
    restored. *)
Theorem batch_failure_propagates (pre post : list (Batch Tensor))
    (bad : Batch Tensor) (w : World)
    (Hpre : Forall (fun b => well_shaped b = true) pre)
    (Hbad : (length (shape (audio bad)) < 2)%nat) :
  (exists losses w1,
      train_step (pre ++ bad :: post) w = Raise IndexError w1
      /\ length losses = length pre
      /\ trace w1
         = trace w ++ ModelTrain
                   :: concat (map (batch_block (grad_enabled w)) losses)
      /\ cursor (rng w1) = (cursor (rng w) + length pre + 1)%nat)
  /\ (exists w1,
        val_step (pre ++ bad :: post) w = Raise IndexError w1
        /\ training w1 = false /\ grad_enabled w1 = grad_enabled w
        /\ net w1 = net w /\ optim w1 = optim w
        /\ trace w1
           = trace w ++ ModelEval :: repeat (Forward false false) (length pre)).
Proof.
  split.
  - destruct (train_loop_trace Hpre (0, 0)%Q (world_of (model_train w)) eq_refl)
      as (losses & r & w' & E & L & Tr & _ & _ & _ & _ & Hc).
    exists losses, (after_draw w').
    rewrite train_step_eq, for_each_app, E.
    cbn [for_each]. unfold bind. rewrite train_body_eq.
    rewrite subsample_flat_audio by assumption.
    split; [reflexivity|]. split; [exact L|]. split.
    + cbn [after_draw trace]. rewrite Tr. cbn. now rewrite <- app_assoc.
    + cbn [after_draw rng advance cursor]. rewrite Hc. cbn. lia.
  - destruct (loop_draws val_body val_body_draws Hpre (0, 0)%Q
                (set_grad false (world_of (model_eval w))))
      as (r & w' & E & _ & _).
    pose proof (val_loop_frame pre (0, 0)%Q
                  (set_grad false (world_of (model_eval w)))) as F.
    cbn zeta in F. rewrite E in F. cbn [world_of] in F.
    destruct F as (Ft & Fn & Fo & Fg & k & _ & Ftr & ->).
    exists (set_grad (grad_enabled w) (after_draw w')).
    rewrite val_step_eq, for_each_app, E.
    cbn [for_each]. unfold bind. rewrite val_body_eq.
    rewrite subsample_flat_audio by assumption.
    split; [reflexivity|].
    cbn [set_grad after_draw training grad_enabled net optim trace] in *.
    cbn [model_eval set_training world_of training grad_enabled net optim trace]
      in *.
    repeat split; trivial. rewrite Ftr. now rewrite <- app_assoc.
Qed.

(** X11. Without an epoch to run ([epochs <= 0]) [train] only moves the model
    to the device: it returns for any loaders, empty ones included, and calls
    neither step. *)
Theorem train_without_epochs (train_dataloader val_dataloader : list (Batch Tensor))
    (patience epochs : Z) (w : World) (He : epochs <= 0) :
  train train_dataloader val_dataloader patience epochs w
  = Ok tt (world_of (model_to w)).
Proof.
  unfold train, bind. now rewrite py_range_nonpos.
Qed.

End StepFailures.

(** * Further properties of [train] *)

Lemma run_shape_stops_at_once (patience e : Z) (es : list Z)
    (rows : list Epoch) (stopped : bool) :
  patience <= 0 ->
  run_shape patience (e :: es) 0%Q 0 rows stopped ->
  stopped = true
  /\ exists r, rows = [r] /\ ep_index r = e /\ ep_count r = 0
               /\ epoch_block patience r = head_block r.
Proof.
  intros Hp S. inversion S as [| e' es' prev count r Hi Hc Hv Hs
                               | e' es' prev count r rest st Hi Hc Hv Hs S'];
    subst; rewrite next_count_first in Hc by assumption.
  - split; [reflexivity|]. exists r. repeat split; trivial.
    unfold epoch_block. destruct (patience <=? ep_count r) eqn:P; [reflexivity | lia].
  - lia.
Qed.

(** A run that stops does so in an epoch whose score fell, with the counter
    at [patience] exactly. *)
Lemma run_shape_stop_is_drop (patience : Z) (es : list Z) (prev : Q) (count : Z)
    (rows : list Epoch) (stopped : bool) :
  run_shape patience es prev count rows stopped ->
  stopped = true -> count < patience ->
  exists rows' final,
    rows = rows' ++ [final] /\ ep_count final = patience
    /\ (ep_val_f1 final < last (map ep_val_f1 rows') prev)%Q.
Proof.
  induction 1 as [| e es prev count r Hi Hc Hv Hp
                  | e es prev count r rows stopped Hi Hc Hv Hp S IH];
    intros Hs Hlt.
  - discriminate.
  - exists [], r. split; [reflexivity|].
    destruct (Qlt_le_dec (ep_val_f1 r) prev) as [D|D].
    + split; [|exact D].
      destruct (next_count_spec prev count (ep_val_f1 r)) as (N & _).
      rewrite (N D) in Hc. lia.
    + exfalso. destruct (next_count_spec prev count (ep_val_f1 r)) as (_ & N).
      rewrite N in Hc by now apply Qle_not_lt. lia.
  - destruct (IH Hs Hp) as (rows' & final & -> & Hc' & Hd).
    exists (r :: rows'), final. split; [reflexivity|]. split; [exact Hc'|].
    cbn [map]. now rewrite last_cons_default.
Qed.

(** A run whose scores never fall does not stop, and its counter does not
    move. *)
Lemma run_shape_never_falls (patience : Z) (es : list Z) (prev : Q) (count : Z)
    (rows : list Epoch) (stopped : bool) :
  run_shape patience es prev count rows stopped ->
  count < patience -> never_falls prev (map ep_val_f1 rows) ->
  stopped = false /\ Forall (fun r => ep_count r = count) rows.
Proof.
  induction 1 as [| e es prev count r Hi Hc Hv Hp
                  | e es prev count r rows stopped Hi Hc Hv Hp S IH];
    intros Hlt Hnf.
  - split; [reflexivity | constructor].
  - exfalso. destruct Hnf as (Hle & _).
    destruct (next_count_spec prev count (ep_val_f1 r)) as (_ & N).
    rewrite N in Hc by now apply Qle_not_lt. lia.
  - destruct Hnf as (Hle & Hnf).
    destruct (next_count_spec prev count (ep_val_f1 r)) as (_ & N).
    rewrite N in Hc by now apply Qle_not_lt.
    rewrite Hc in IH. destruct (IH Hlt Hnf) as (-> & Hall).
    split; [reflexivity|]. now constructor.
Qed.

Lemma full_blocks (patience : Z) (rows : list Epoch) :
  Forall (fun r => ep_count r < patience) rows ->
  concat (map (epoch_block patience) rows)
  = concat (map (fun r => head_block r ++ tail_block r) rows).
Proof.
  induction 1 as [|r rows Hr Hrows IH]; [reflexivity|].
  cbn [map concat]. rewrite IH. f_equal.
  unfold epoch_block. destruct (patience <=? ep_count r) eqn:P; [lia | reflexivity].
Qed.

Section TrainEdges.

Context {T : Torch}.

Variables train_dataloader val_dataloader : list (Batch Tensor).

(** X12. With [patience <= 0] the counter, which starts at 0, has reached
    the threshold at once: a run of at least one epoch executes both steps of
    its first epoch and returns, and no metric is ever appended or logged. *)
Theorem nonpositive_patience_stops_at_once (patience epochs : Z) (w : World)
    (Htn : train_dataloader <> []) (Hvn : val_dataloader <> [])
    (Hts : Forall (fun b => well_shaped b = true) train_dataloader)
    (Hvs : Forall (fun b => well_shaped b = true) val_dataloader)
    (Hp : patience <= 0) (He : 1 <= epochs) :
  exists r w' added,
    train train_dataloader val_dataloader patience epochs w = Ok tt w'
    /\ train_epochs train_dataloader val_dataloader patience (py_range epochs)
                    init_locals (world_of (model_to w))
       = Ok Return w'
    /\ trace w' = trace w ++ ModelTo :: added
    /\ epoch_view added = head_block r
    /\ ep_index r = 0 /\ ep_count r = 0.
Proof.
  destruct (train_run patience Htn Hvn Hts Hvs epochs w)
    as (rows & stopped & w' & added & E & F & S & Htr & V).
  destruct (py_range_pos He) as (es & Hes). rewrite Hes in S.
  destruct (run_shape_stops_at_once Hp S) as (-> & r & -> & Hi & Hc & B).
  exists r, w', added. split; [exact E|]. split; [exact F|].
  split; [exact Htr|]. split; [|now split].
  rewrite V. cbn [map concat]. now rewrite B, app_nil_r.
Qed.

(** X13. With [patience >= 1] an early stop happens only in an epoch whose
    validation F1 is below that of the epoch before it, and the counter then
    equals [patience] exactly. *)
Theorem early_stop_is_a_drop (patience epochs : Z) (w : World)
    (Htn : train_dataloader <> []) (Hvn : val_dataloader <> [])
    (Hts : Forall (fun b => well_shaped b = true) train_dataloader)
    (Hvs : Forall (fun b => well_shaped b = true) val_dataloader)
    (Hp : 1 <= patience) :
  exists rows (stopped : bool) w' added,
    train train_dataloader val_dataloader patience epochs w = Ok tt w'
    /\ train_epochs train_dataloader val_dataloader patience (py_range epochs)
                    init_locals (world_of (model_to w))
       = Ok (if stopped then Return else Continue (locals_after init_locals rows))
            w'
    /\ trace w' = trace w ++ ModelTo :: added
    /\ epoch_view added = concat (map (epoch_block patience) rows)
    /\ (stopped = true ->
        exists rows' final,
          rows = rows' ++ [final] /\ ep_count final = patience
          /\ (ep_val_f1 final < last (map ep_val_f1 rows') 0)%Q).
Proof.
  destruct (train_run patience Htn Hvn Hts Hvs epochs w)
    as (rows & stopped & w' & added & E & F & S & Htr & V).
  exists rows, stopped, w', added.
  split; [exact E|]. split; [exact F|]. split; [exact Htr|]. split; [exact V|].
  intros Hs. apply (run_shape_stop_is_drop S Hs). lia.
Qed.

(** X14. With [patience >= 1], a run in which no validation F1 is below the
    one before it is never stopped: it executes every epoch, its counter
    stays at 0, and the metrics of every epoch are appended and logged. *)
Theorem steady_run_completes (patience epochs : Z) (w : World)
    (Htn : train_dataloader <> []) (Hvn : val_dataloader <> [])
    (Hts : Forall (fun b => well_shaped b = true) train_dataloader)
    (Hvs : Forall (fun b => well_shaped b = true) val_dataloader)
    (Hp : 1 <= patience) :
  exists rows (stopped : bool) w' added,
    train train_dataloader val_dataloader patience epochs w = Ok tt w'
    /\ train_epochs train_dataloader val_dataloader patience (py_range epochs)
                    init_locals (world_of (model_to w))
       = Ok (if stopped then Return else Continue (locals_after init_locals rows))
            w'
    /\ trace w' = trace w ++ ModelTo :: added
    /\ epoch_view added = concat (map (epoch_block patience) rows)
    /\ (never_falls 0 (map ep_val_f1 rows) ->
        stopped = false /\ length rows = Z.to_nat epochs
        /\ Forall (fun r => ep_count r = 0) rows
        /\ epoch_view added
           = concat (map (fun r => head_block r ++ tail_block r) rows)).
Proof.
  destruct (train_run patience Htn Hvn Hts Hvs epochs w)
    as (rows & stopped & w' & added & E & F & S & Htr & V).
  exists rows, stopped, w', added.
  split; [exact E|]. split; [exact F|]. split; [exact Htr|]. split; [exact V|].
  intros Hnf.
  destruct (run_shape_never_falls S ltac:(lia) Hnf) as (-> & Hall).
  pose proof (run_shape_halt S) as (Hlen & Hlt). cbn iota in *.
  split; [reflexivity|]. split; [now rewrite <- py_range_length|].
  split; [exact Hall|]. rewrite V. now apply full_blocks.
Qed.

(** X15. With an empty validation loader a run of at least one epoch fails
    with a [ZeroDivisionError] in its first epoch, after the whole training
    step of that epoch: the model has been updated on every training batch
    when the exception leaves [train]. *)
Theorem empty_validation_raises_after_training (patience epochs : Z) (w : World)
    (Htn : train_dataloader <> [])
    (Hts : Forall (fun b => well_shaped b = true) train_dataloader)
    (He : 1 <= epochs) :
  exists losses l f w',
    train train_dataloader [] patience epochs w = Raise ZeroDivisionError w'
    /\ length losses = length train_dataloader
    /\ trace w'
       = trace w ++ ModelTo :: ModelTrain
                 :: concat (map (batch_block (grad_enabled w)) losses)
                 ++ [TrainStepReturned l f; ModelEval].
Proof.
  pose (w0 := world_of (model_to w)).
  destruct (train_loop_trace Hts (0, 0)%Q (world_of (model_train w0)) eq_refl)
    as (losses & r & w1 & E & L & Tr & _).
  destruct (py_range_pos He) as (es & Hes).
  exists losses, (fst r / inject_Z (Z.of_nat (length train_dataloader)))%Q,
    (snd r / inject_Z (Z.of_nat (length train_dataloader)))%Q,
    (set_grad (grad_enabled w1)
       (set_grad false
          (world_of (model_eval
             (world_of (emit (TrainStepReturned
                                (fst r / inject_Z (Z.of_nat (length train_dataloader)))
                                (snd r / inject_Z (Z.of_nat (length train_dataloader))))
                             w1)))))).
  split; [|split; [exact L|]].
  - unfold train, bind. rewrite Hes.
    cbn [model_to emit train_epochs]. unfold bind, train_epoch, bind.
    change (mkWorld (rng w) (training w) (net w) (optim w) (grad_enabled w)
                    (trace w ++ [ModelTo])) with w0.
    rewrite train_step_eq, E.
    destruct (length train_dataloader) eqn:D.
    { destruct train_dataloader; [contradiction | discriminate]. }
    cbn [emit]. rewrite val_step_eq. reflexivity.
  - cbn [set_grad model_eval set_training emit world_of trace].
    rewrite Tr. cbn [w0 model_to emit model_train set_training
                     world_of trace grad_enabled].
    rewrite <- !app_assoc. reflexivity.
Qed.

End TrainEdges.

(** * The range of the scores *)

Lemma count_cons (c x : Z) (l : list Z) :
  Metrics.count c (x :: l) = (if x =? c then 1 else 0) + Metrics.count c l.
Proof.
  unfold Metrics.count. cbn [count_occ].
  destruct (Z.eq_dec x c) as [E|E].
  - subst. rewrite Z.eqb_refl. lia.
  - apply Z.eqb_neq in E. rewrite E. lia.
Qed.

Lemma count_nonneg (c : Z) (l : list Z) : 0 <= Metrics.count c l.
Proof. unfold Metrics.count. lia. Qed.

Lemma true_pos_le_counts (c : Z) (g p : list Z) :
  Metrics.true_pos c g p <= Metrics.count c g
  /\ Metrics.true_pos c g p <= Metrics.count c p.
Proof.
  revert p. induction g as [|x g IH]; intros [|y p]; cbn [Metrics.true_pos].
  - split; apply count_nonneg.
  - split; apply count_nonneg.
  - split; apply count_nonneg.
  - destruct (IH p) as (Hg & Hp). rewrite !count_cons.
    destruct (x =? c), (y =? c); cbn [andb]; lia.
Qed.

Lemma class_f1_le_1 (c : Z) (g p : list Z) : (Metrics.class_f1 c g p <= 1)%Q.
Proof.
  unfold Metrics.class_f1.
  destruct (Metrics.count c g + Metrics.count c p =? 0) eqn:E.
  - unfold Qle. cbn. lia.
  - apply Z.eqb_neq in E.
    pose proof (count_nonneg c g). pose proof (count_nonneg c p).
    destruct (true_pos_le_counts c g p).
    unfold Qle. cbn [Qnum Qden]. rewrite Z2Pos.id by lia. lia.
Qed.

Lemma Qsum_map_le {A} (f h : A -> Q) (l : list A) :
  (forall a, In a l -> (f a <= h a)%Q) ->
  (Metrics.Qsum (map f l) <= Metrics.Qsum (map h l))%Q.
Proof.
  unfold Metrics.Qsum. induction l as [|a l IH]; intros H; cbn [map fold_right].
  - apply Qle_refl.
  - apply Qplus_le_compat; [apply H; now left|].
    apply IH. intros b Hb. apply H. now right.
Qed.

Lemma Qsum_map_plus {A} (f h : A -> Q) (l : list A) :
  (Metrics.Qsum (map (fun a => f a + h a) l)
   == Metrics.Qsum (map f l) + Metrics.Qsum (map h l))%Q.
Proof.
  unfold Metrics.Qsum. induction l as [|a l IH]; cbn [map fold_right].
  - ring.
  - rewrite IH. ring.
Qed.

Lemma Qsum_indicator_out (x : Z) (l : list Z) :
  ~ In x l ->
  (Metrics.Qsum (map (fun c => inject_Z (if x =? c then 1 else 0)) l) == 0)%Q.
Proof.
  unfold Metrics.Qsum. induction l as [|a l IH]; intros H; cbn [map fold_right].
  - reflexivity.
  - rewrite IH by (intros I; apply H; now right).
    destruct (x =? a) eqn:E; [|reflexivity].
    apply Z.eqb_eq in E. exfalso. apply H. now left.
Qed.

Lemma Qsum_indicator_in (x : Z) (l : list Z) :
  NoDup l -> In x l ->
  (Metrics.Qsum (map (fun c => inject_Z (if x =? c then 1 else 0)) l) == 1)%Q.
Proof.
  induction 1 as [|a l Ha Hl IH]; intros Hx; [contradiction|].
  unfold Metrics.Qsum. cbn [map fold_right].
  fold (Metrics.Qsum (map (fun c => inject_Z (if x =? c then 1 else 0)) l)).
  destruct Hx as [->|Hx].
  - rewrite Z.eqb_refl, Qsum_indicator_out by assumption. reflexivity.
  - rewrite IH by assumption.
    destruct (x =? a) eqn:E; [|reflexivity].
    apply Z.eqb_eq in E. subst. contradiction.
Qed.

(** The supports of the classes of a list that holds every label add up to the
    number of samples. *)
Lemma supports_add_up (g l : list Z) :
  NoDup l -> incl g l ->
  (Metrics.Qsum (map (fun c => inject_Z (Metrics.count c g)) l)
   == inject_Z (Z.of_nat (length g)))%Q.
Proof.
  intros Hl. induction g as [|x g IH]; intros Hin.
  - unfold Metrics.Qsum, Metrics.count. cbn [count_occ length].
    clear. induction l as [|a l IH]; cbn [map fold_right]; [reflexivity|].
    rewrite IH. reflexivity.
  - assert (E : (Metrics.Qsum (map (fun c => inject_Z (Metrics.count c (x :: g))) l)
                 == Metrics.Qsum
                      (map (fun c => inject_Z (if x =? c then 1 else 0)
                                     + inject_Z (Metrics.count c g)) l))%Q).
    { clear. unfold Metrics.Qsum.
      induction l as [|a l IH]; cbn [map fold_right]; [reflexivity|].
      rewrite IH, count_cons, inject_Z_plus. reflexivity. }
    rewrite E, Qsum_map_plus, Qsum_indicator_in, IH.
    + cbn [length]. rewrite Nat2Z.inj_succ. unfold Z.succ.
      rewrite inject_Z_plus. change (inject_Z 1) with 1%Q. ring.
    + intros a Ha. apply Hin. now right.
    + exact Hl.
    + apply Hin. now left.
Qed.

Lemma weighted_f1_le_1 (g p : list Z) : (Metrics.weighted_f1 g p <= 1)%Q.
Proof.
  unfold Metrics.weighted_f1.
  destruct (Z.of_nat (length g) =? 0) eqn:E.
  - unfold Qle. cbn. lia.
  - apply Z.eqb_neq in E. apply Qle_shift_div_r.
    + unfold Qlt, inject_Z. cbn [Qnum Qden]. lia.
    + rewrite Qmult_1_l.
      rewrite <- (supports_add_up (g := g) (l := Metrics.labels_of g p)).
      * apply Qsum_map_le. intros c _.
        assert (H0 : (0 <= inject_Z (Metrics.count c g))%Q).
        { unfold Qle, inject_Z. cbn [Qnum Qden].
          pose proof (count_nonneg c g). lia. }
        pose proof (Qmult_le_compat_r _ _ _ (class_f1_le_1 c g p) H0) as H.
        rewrite Qmult_1_l in H. rewrite Qmult_comm. exact H.
      * apply NoDup_nodup.
      * intros a Ha. apply nodup_In, in_or_app. now left.
Qed.

Lemma Qsum_le_length (l : list Q) :
  Forall (fun q => (q <= 1)%Q) l ->
  (Metrics.Qsum l <= inject_Z (Z.of_nat (length l)))%Q.
Proof.
  unfold Metrics.Qsum. induction 1 as [|q l Hq Hl IH]; cbn [fold_right length].
  - apply Qle_refl.
  - rewrite Nat2Z.inj_succ. unfold Z.succ. rewrite inject_Z_plus.
    change (inject_Z 1) with 1%Q. rewrite (Qplus_comm _ 1).
    now apply Qplus_le_compat.
Qed.

Lemma Qmean_le_1 (l : list Q) :
  l <> [] -> Forall (fun q => (q <= 1)%Q) l -> (Qmean l <= 1)%Q.
Proof.
  intros Hne H. unfold Qmean. apply Qle_shift_div_r.
  - unfold Qlt, inject_Z. cbn [Qnum Qden].
    destruct l; [contradiction | cbn [length]; lia].
  - rewrite Qmult_1_l. now apply Qsum_le_length.
Qed.

Section ScoreRange.

Context {T : Torch}.

Lemma val_values_in_unit (data : list (Batch Tensor)) :
  forall (w : World) (vals : list (Q * Q)) (w' : World),
    map_each data (val_body (0, 0)%Q) w = Ok vals w' ->
    Forall (fun v => (0 <= snd v)%Q /\ (snd v <= 1)%Q) vals.
Proof.
  induction data as [|b data IH]; intros w vals w' E.
  - inversion E. constructor.
  - cbn [map_each] in E. unfold bind in E. rewrite val_body_eq in E.
    destruct (subsample b w) as [s w1|e w1]; [|discriminate].
    destruct (map_each data (val_body (0, 0)%Q) (forwarded w1))
      as [vals' w2|e w2] eqn:E'; [|discriminate].
    inversion E; subst. constructor; [|eapply IH, E'].
    cbn [snd fst]. rewrite Qplus_0_l.
    split; [apply weighted_f1_nonneg | apply weighted_f1_le_1].
Qed.

Lemma train_values_in_unit (data : list (Batch Tensor)) :
  forall (w : World) (vals : list (Q * Q)) (w' : World),
    map_each data (train_body (0, 0)%Q) w = Ok vals w' ->
    Forall (fun v => (0 <= snd v)%Q /\ (snd v <= 1)%Q) vals.
Proof.
  induction data as [|b data IH]; intros w vals w' E.
  - inversion E. constructor.
  - cbn [map_each] in E. unfold bind in E. rewrite train_body_eq in E.
    destruct (subsample b w) as [s w1|e w1]; [|discriminate].
    destruct (map_each data (train_body (0, 0)%Q) (trained b s w1))
      as [vals' w2|e w2] eqn:E'; [|discriminate].
    inversion E; subst. constructor; [|eapply IH, E'].
    cbn [snd fst]. rewrite Qplus_0_l.
    split; [apply weighted_f1_nonneg | apply weighted_f1_le_1].
Qed.

Lemma mean_in_unit (vals : list (Q * Q)) (f : Q) :
  vals <> [] ->
  Forall (fun v => (0 <= snd v)%Q /\ (snd v <= 1)%Q) vals ->
  (f == Qmean (map snd vals))%Q -> (0 <= f)%Q /\ (f <= 1)%Q.
Proof.
  intros Hne H E. rewrite E. split.
  - apply Qmean_nonneg, Forall_forall. intros q Hq.
    apply in_map_iff in Hq as (v & <- & Hv).
    rewrite Forall_forall in H. now apply H.
  - apply Qmean_le_1.
    + destruct vals; [contradiction | discriminate].
    + apply Forall_forall. intros q Hq.
      apply in_map_iff in Hq as (v & <- & Hv).
      rewrite Forall_forall in H. now apply H.
Qed.

(** X16. The F1 returned by [train_step], by [val_step] and by [test_step]
    lies between 0 and 1. *)
Theorem scores_in_unit_interval (data : list (Batch Tensor)) (w : World)
    (Hne : data <> []) (Hws : Forall (fun b => well_shaped b = true) data) :
  (exists l f w', train_step data w = Ok (l, f) w' /\ (0 <= f)%Q /\ (f <= 1)%Q)
  /\ (exists l f w', val_step data w = Ok (l, f) w' /\ (0 <= f)%Q /\ (f <= 1)%Q)
  /\ (exists f w', test_step data w = Ok f w' /\ (0 <= f)%Q /\ (f <= 1)%Q).
Proof.
  assert (N : forall vals : list (Q * Q), length vals = length data -> vals <> []).
  { intros vals L ->. destruct data; [contradiction | discriminate]. }
  split; [|split].
  - destruct (train_step_means w Hne Hws)
      as (vals & w1 & l & f & Em & L & E & _ & Hf).
    exists l, f, w1. split; [exact E|].
    eapply mean_in_unit; [apply N, L | eapply train_values_in_unit, Em | exact Hf].
  - destruct (val_step_means w Hne Hws)
      as (vals & w1 & l & f & Em & L & E & _ & Hf).
    exists l, f, (set_grad (grad_enabled w) w1). split; [exact E|].
    eapply mean_in_unit; [apply N, L | eapply val_values_in_unit, Em | exact Hf].
  - destruct (test_loop_total Hws (set_grad false w)) as (vals & w1 & Em).
    pose proof (test_loop_concat data ([], []) (set_grad false w)) as C.
    rewrite Em in C. destruct C as (C & Hl).
    unfold test_step, bind, inference_mode. rewrite C. cbn [fst snd app].
    rewrite f1_score_ok by now apply concat_lengths.
    eexists _, _. split; [reflexivity|].
    split; [apply weighted_f1_nonneg | apply weighted_f1_le_1].
Qed.

End ScoreRange.

(** * The counter as a number of falls *)

Lemma run_shape_counts_drops (patience : Z) (es : list Z) (prev : Q) (count : Z)
    (rows : list Epoch) (stopped : bool) :
  run_shape patience es prev count rows stopped ->
  forall (k : nat) (r : Epoch),
    nth_error rows k = Some r ->
    ep_count r = count + drops prev (map ep_val_f1 (firstn (S k) rows)).
Proof.
  assert (N : forall p c v, next_count p c v = c + (if Qlt_bool v p then 1 else 0)).
  { intros p c v. unfold next_count. destruct (Qlt_bool v p); lia. }
  induction 1 as [| e es prev count r0 Hi Hc Hv Hp
                  | e es prev count r0 rows stopped Hi Hc Hv Hp Sh IH];
    intros k r Hk.
  - destruct k; discriminate.
  - destruct k as [|k]; [|destruct k; discriminate].
    inversion Hk; subst. cbn [firstn map drops]. rewrite Hc, N. lia.
  - destruct k as [|k].
    + inversion Hk; subst. cbn [firstn map drops]. rewrite Hc, N. lia.
    + cbn [nth_error] in Hk. rewrite (IH k r Hk).
      change (firstn (S (S k)) (r0 :: rows)) with (r0 :: firstn (S k) rows).
      cbn [map drops]. rewrite Hc, N. lia.
Qed.

Section CounterIsCumulative.

Context {T : Torch}.

Variables train_dataloader val_dataloader : list (Batch Tensor).

(** X17. The counter is cumulative: after each executed epoch it equals the
    number of epochs so far whose validation F1 was below that of the epoch
    before (0 before the first), however many epochs with a better score lie
    in between. *)
Theorem counter_counts_all_falls (patience epochs : Z) (w : World)
    (Htn : train_dataloader <> []) (Hvn : val_dataloader <> [])
    (Hts : Forall (fun b => well_shaped b = true) train_dataloader)
    (Hvs : Forall (fun b => well_shaped b = true) val_dataloader) :
  exists rows w' added,
    train train_dataloader val_dataloader patience epochs w = Ok tt w'
    /\ trace w' = trace w ++ ModelTo :: added
    /\ epoch_view added = concat (map (epoch_block patience) rows)
    /\ forall (k : nat) (r : Epoch),
        nth_error rows k = Some r ->
        ep_count r = drops 0 (map ep_val_f1 (firstn (S k) rows)).
Proof.
  destruct (train_run patience Htn Hvn Hts Hvs epochs w)
    as (rows & stopped & w' & added & E & F & S & Htr & V).
  exists rows, w', added.
  split; [exact E|]. split; [exact Htr|]. split; [exact V|].
  intros k r Hk. now rewrite (run_shape_counts_drops S k Hk).
Qed.

End CounterIsCumulative.

(** ** The further theorems at the small instance *)

Lemma generate_subsampling_audio_errors_witness :
  0 <= 32 < 2 ^ 63
  /\ generate_subsampling (T := Toy.torch) 32 16 [1; 8; 8; 3] [1024] Toy.world0
     = Raise IndexError (after_draw Toy.world0).
Proof.
  split; [lia|].
  destruct (@generate_subsampling_audio_errors Toy.torch 32 16 [1; 8; 8; 3]
              [1024] Toy.world0 ltac:(lia)) as (H & _).
  apply H. reflexivity.
Defined.



Lemma subsample_ignores_batch_and_channels_witness :
  nth_error [1; 1024] 1 = nth_error [16; 1024] 1
  /\ generate_subsampling (T := Toy.torch) 32 16 [1; 8; 8; 3] [1; 1024] Toy.world0
     = generate_subsampling 32 16 [16; 8; 8; 1] [16; 1024] Toy.world0.
Proof.
  split; [reflexivity|].
  apply (@subsample_ignores_batch_and_channels Toy.torch 32 16 1 16 3 1 [8; 8]
           [1; 1024] [16; 1024] Toy.world0).
  reflexivity.
Defined.

Lemma train_step_logs_every_batch_witness :
  Toy.mixed_data <> []
  /\ exists (losses : list Q) l f w',
      train_step (T := Toy.torch) Toy.mixed_data Toy.world0 = Ok (l, f) w'
      /\ length losses = 2%nat.
Proof.
  split; [discriminate|].
  destruct (@train_step_logs_every_batch Toy.torch Toy.mixed_data Toy.world0
              ltac:(discriminate) toy_mixed_shaped)
    as (losses & l & f & w' & E & L & _).
  exists losses, l, f, w'. split; [exact E | exact L].
Defined.


Lemma batch_failure_propagates_witness :
  (length (@shape Toy.torch (audio toy_flat_audio)) < 2)%nat
  /\ exists w1,
      val_step (T := Toy.torch) (Toy.mixed_data ++ [toy_flat_audio]) Toy.world0
      = Raise IndexError w1
      /\ grad_enabled w1 = true.
Proof.
  split; [cbn; lia|].
  destruct (@batch_failure_propagates Toy.torch Toy.mixed_data [] toy_flat_audio
              Toy.world0 toy_mixed_shaped ltac:(cbn; lia))
    as (_ & w1 & E & _ & Hg & _).
  exists w1. split; [exact E | exact Hg].
Defined.

Lemma train_without_epochs_witness :
  0 <= 0
  /\ train (T := Toy.torch) [] [] 1 0 Toy.world0
     = Ok tt (world_of (model_to Toy.world0)).
Proof.
  split; [lia|].
  apply (@train_without_epochs Toy.torch [] [] 1 0 Toy.world0). lia.
Defined.

Lemma nonpositive_patience_stops_at_once_witness :
  (0 <= 0 /\ 1 <= 2)
  /\ exists w',
      train (T := Toy.torch) Toy.train_data Toy.val_data 0 2 Toy.world0 = Ok tt w'.
Proof.
  split; [lia|].
  destruct (@nonpositive_patience_stops_at_once Toy.torch Toy.train_data
              Toy.val_data 0 2 Toy.world0 toy_train_nonempty toy_val_nonempty
              toy_train_shaped toy_val_shaped ltac:(lia) ltac:(lia))
    as (r & w' & added & E & _).
  exists w'. exact E.
Defined.

Lemma early_stop_is_a_drop_witness :
  1 <= 1
  /\ exists w',
      train (T := Toy.torch) Toy.train_data Toy.val_data 1 2 Toy.world0 = Ok tt w'.
Proof.
  split; [lia|].
  destruct (@early_stop_is_a_drop Toy.torch Toy.train_data Toy.val_data 1 2
              Toy.world0 toy_train_nonempty toy_val_nonempty
              toy_train_shaped toy_val_shaped ltac:(lia))
    as (rows & stopped & w' & added & E & _).
  exists w'. exact E.
Defined.

Lemma steady_run_completes_witness :
  1 <= 1
  /\ exists w',
      train (T := Toy.torch) Toy.train_data Toy.val_data 1 1 Toy.world0 = Ok tt w'.
Proof.
  split; [lia|].
  destruct (@steady_run_completes Toy.torch Toy.train_data Toy.val_data 1 1
              Toy.world0 toy_train_nonempty toy_val_nonempty
              toy_train_shaped toy_val_shaped ltac:(lia))
    as (rows & stopped & w' & added & E & _).
  exists w'. exact E.
Defined.

Lemma empty_validation_raises_after_training_witness :
  (Toy.train_data <> [] /\ 1 <= 1)
  /\ exists w',
      train (T := Toy.torch) Toy.train_data [] 1 1 Toy.world0
      = Raise ZeroDivisionError w'.
Proof.
  split; [split; [discriminate | lia]|].
  destruct (@empty_validation_raises_after_training Toy.torch Toy.train_data
              1 1 Toy.world0 toy_train_nonempty toy_train_shaped ltac:(lia))
    as (losses & l & f & w' & E & _).
  exists w'. exact E.
Defined.

Lemma scores_in_unit_interval_witness :
  Toy.mixed_data <> []
  /\ exists l f w',
      val_step (T := Toy.torch) Toy.mixed_data Toy.world0 = Ok (l, f) w'
      /\ (0 <= f)%Q /\ (f <= 1)%Q.
Proof.
  split; [discriminate|].
  destruct (@scores_in_unit_interval Toy.torch Toy.mixed_data Toy.world0
              ltac:(discriminate) toy_mixed_shaped)
    as (_ & (l & f & w' & E & H0 & H1) & _).
  exists l, f, w'. split; [exact E|]. split; [exact H0 | exact H1].
Defined.

Lemma counter_counts_all_falls_witness :
  (Toy.train_data <> [] /\ Toy.val_data <> [])
  /\ exists w',
      train (T := Toy.torch) Toy.train_data Toy.val_data 3 2 Toy.world0 = Ok tt w'.
Proof.
  split; [split; discriminate|].
  destruct (@counter_counts_all_falls Toy.torch Toy.train_data Toy.val_data 3 2
              Toy.world0 toy_train_nonempty toy_val_nonempty
              toy_train_shaped toy_val_shaped)
    as (rows & w' & added & E & _).
  exists w'. exact E.
Defined.
